(** * Sector money-flow heat map: acquisition, aggregation and transform

    A shallow embedding of [资金流向热力.py]: the retrying, memoised
    fetch [get_data_with_retry], the all-sector pass [get_board_data],
    the column arithmetic of [process_data] and the data path of [main].

    The Python code talks to the outside through a handful of calls
    (the provider's two endpoints, the clock, [time.sleep], Streamlit's
    widgets).  Each such call is an [Event] appended to the [trace] of
    the [World]; what the outside answers is an oracle of the class
    [Env], a function of the trace so far.  Program state that survives
    between calls (the [lru_cache] of [get_data_with_retry]) is a field
    of the [World] too.  The functions of the script are computations
    in the monad [M] of state and exceptions over that world. *)

From Stdlib Require Import ZArith List Lia.
From Stdlib Require Import Floats.PrimFloat.
From stdpp Require Import base option list strings gmap.

Open Scope string_scope.
Open Scope Z_scope.

(** ** Tables *)

(** A cell of a table: a binary64 number (NaN is pandas' missing
    number), a string, or Python's [None]. *)
Inductive Cell : Type :=
| CNum (x : float)
| CStr (s : string)
| CNone.

(** One record of a table, as [Series.to_dict()] gives it and as
    [pd.DataFrame(list_of_dicts)] takes it. *)
Abbreviation Row := (gmap string Cell).

(** A [DataFrame]: its column labels and its records in index order.  A
    record that has no entry for a column holds NaN there, which is how
    pandas fills the holes of a list of dicts. *)
Record DataFrame : Type := mkDataFrame {
  columns : gset string;
  rows : list Row
}.

Definition NaN : Cell := CNum nan.

(** [df.loc[i, c]] for the record [r] of row [i]. *)
Definition cell (r : Row) (c : string) : Cell := default NaN (r !! c).

(** [pd.DataFrame(data_list)] for a list of dicts: the columns are the
    union of the keys. *)
Definition DataFrame_of_records (data_list : list Row) : DataFrame :=
  {| columns := ⋃ (dom <$> data_list); rows := data_list |}.

(** [df.empty] *)
Definition empty (df : DataFrame) : bool :=
  match rows df with [] => true | _ => false end.

(** ** Exceptions, results *)

(** A Python exception (a subclass of [Exception]): its class name and
    [str(e)]. *)
Record Exception : Type := mkException {
  exc_type : string;
  exc_msg : string
}.

Inductive Result (A : Type) : Type :=
| Ok (a : A)
| Raise (e : Exception).
Arguments Ok {A} a.
Arguments Raise {A} e.

Definition is_ok {A} (r : Result A) : bool :=
  match r with Ok _ => true | Raise _ => false end.

Definition IndexError_iloc : Exception :=
  mkException "IndexError" "single positional indexer is out-of-bounds".
Definition AttributeError_iloc : Exception :=
  mkException "AttributeError" "'NoneType' object has no attribute 'iloc'".
Definition KeyError (what : string) : Exception :=
  mkException "KeyError" what.
Definition TypeError_compare : Exception :=
  mkException "TypeError" "'>=' not supported between instances of 'float' and 'str'".

(** ** The world *)

(** What the program does to the outside, in program order. *)
Inductive Event : Type :=
| EvHist (symbol start_date end_date : string)
    (* ak.stock_board_industry_hist_em(symbol=, start_date=, end_date=, adjust="") *)
| EvSleep (seconds : Z)            (* time.sleep(seconds) *)
| EvNames                          (* ak.stock_board_industry_name_em() *)
| EvNow                            (* datetime.now() *)
| EvWarning (msg : string)         (* st.warning(msg) *)
| EvError (msg : string)           (* st.error(msg) *)
| EvTreemap                        (* px.treemap(...) *)
| EvUpdateLayout                   (* fig.update_layout(...) *)
| EvPlotlyChart                    (* st.plotly_chart(fig) *)
| EvDataframe.                     (* st.dataframe(...) *)

(** The value a call of [get_data_with_retry] returns: a table, or
    [None] when the function falls off its end. *)
Abbreviation Value := (option DataFrame).

(** The key [functools.lru_cache] builds from a positional call
    [get_data_with_retry(symbol, start_date, end_date[, max_retries])]:
    the tuple of the arguments as passed. *)
Abbreviation Key := (string * string * string * option Z)%type.

Record World : Type := mkWorld {
  trace : list Event;           (* oldest event first *)
  lru : list (Key * Value)      (* most recently used entry first *)
}.

Definition log (ev : Event) (w : World) : World :=
  {| trace := trace w ++ [ev]; lru := lru w |}.

Definition set_lru (c : list (Key * Value)) (w : World) : World :=
  {| trace := trace w; lru := c |}.

(** The outside: every answer is a function of what happened so far. *)
Class Env : Type := {
  (* the provider's historical-data endpoint *)
  stock_board_industry_hist_em :
    list Event -> string -> string -> string -> Result DataFrame;
  (* the provider's directory: the 板块名称 column of its table *)
  stock_board_industry_name_em : list Event -> Result (list string);
  (* datetime.now(), in seconds *)
  clock : list Event -> Z;
  (* datetime.strftime(format) *)
  strftime : string -> Z -> string;
  (* how pd.to_numeric reads a string; None when it does not parse *)
  parse_float : string -> option float;
  (* the store of st.cache_data(ttl=3600): the snapshot it still holds *)
  cache_data_get : list Event -> option DataFrame;
  (* px.treemap and fig.update_layout: they succeed or raise *)
  px_treemap : list Event -> DataFrame -> string -> string -> string ->
               float * float -> Result unit;
  fig_update_layout : list Event -> string -> Result unit
}.

(** ** The monad of the script: state and exceptions *)

Definition M (A : Type) : Type := World -> Result A * World.

Definition ret {A} (a : A) : M A := fun w => (Ok a, w).

Definition raise {A} (e : Exception) : M A := fun w => (Raise e, w).

Definition bind {A B} (m : M A) (k : A -> M B) : M B :=
  fun w =>
    match m w with
    | (Ok a, w') => k a w'
    | (Raise e, w') => (Raise e, w')
    end.

(** [try: body / except Exception as e: handler(e)] *)
Definition try_except {A} (body : M A) (handler : Exception -> M A) : M A :=
  fun w =>
    match body w with
    | (Ok a, w') => (Ok a, w')
    | (Raise e, w') => handler e w'
    end.

Definition lift {A} (r : Result A) : M A := fun w => (r, w).

Definition emit (ev : Event) : M unit := fun w => (Ok tt, log ev w).

Declare Scope py_scope.
Delimit Scope py_scope with py.
Notation "'let!' x ':=' m 'in' k" := (bind m (fun x => k))
  (at level 10, x name, m at level 100, k at level 200) : py_scope.
Open Scope py_scope.

(** [for x in xs: acc = body(x, acc)] *)
Fixpoint for_each {A B} (xs : list A) (body : A -> B -> M B) (acc : B) : M B :=
  match xs with
  | [] => ret acc
  | x :: xs' => let! acc' := body x acc in for_each xs' body acc'
  end.

(** ** [functools.lru_cache(maxsize=32)] *)

Definition maxsize : nat := 32.

Fixpoint cache_get (k : Key) (c : list (Key * Value)) : option Value :=
  match c with
  | [] => None
  | (k', v) :: c' => if decide (k' = k) then Some v else cache_get k c'
  end.

Definition cache_del (k : Key) (c : list (Key * Value)) : list (Key * Value) :=
  filter (fun e => fst e ≠ k) c.

(** A hit moves the entry to the most-recent end. *)
Definition cache_touch (k : Key) (v : Value) (c : list (Key * Value))
  : list (Key * Value) :=
  (k, v) :: cache_del k c.

(** After a miss the result is stored; a full cache first gives up its
    least recently used entry. *)
Definition cache_put (k : Key) (v : Value) (c : list (Key * Value))
  : list (Key * Value) :=
  match cache_get k c with
  | Some _ => c
  | None =>
      if (maxsize <=? length c)%nat then (k, v) :: removelast c
      else (k, v) :: c
  end.

(** The wrapper [lru_cache] puts around [user_function]: an exception
    of the function passes through and nothing is stored. *)
Definition lru_cache (k : Key) (user_function : M Value) : M Value :=
  fun w =>
    match cache_get k (lru w) with
    | Some v => (Ok v, set_lru (cache_touch k v (lru w)) w)
    | None =>
        match user_function w with
        | (Ok v, w') => (Ok v, set_lru (cache_put k v (lru w')) w')
        | (Raise e, w') => (Raise e, w')
        end
    end.

Section Script.
Context {E : Env}.

(** ** Data acquisition: [get_data_with_retry] *)

Definition hist_em (symbol start_date end_date : string) : M DataFrame :=
  fun w =>
    (stock_board_industry_hist_em (trace w) symbol start_date end_date,
     log (EvHist symbol start_date end_date) w).

Definition sleep (seconds : Z) : M unit := emit (EvSleep seconds).

(** The loop [for attempt in range(max_retries)], with [remaining]
    iterations to go, the next of them at index [attempt]. *)
Fixpoint attempts (symbol start_date end_date : string) (max_retries : Z)
    (remaining : nat) (attempt : Z) : M Value :=
  match remaining with
  | O => ret None
  | S remaining' =>
      try_except
        (let! df := hist_em symbol start_date end_date in ret (Some df))
        (fun e =>
           if attempt =? max_retries - 1 then raise e
           else let! _ := sleep (2 ^ attempt) in
                attempts symbol start_date end_date max_retries
                         remaining' (attempt + 1))
  end.

Definition default_max_retries : Z := 3.

(** The undecorated function. *)
Definition get_data_with_retry_body (symbol start_date end_date : string)
    (max_retries : Z) : M Value :=
  attempts symbol start_date end_date max_retries (Z.to_nat max_retries) 0.

(** [get_data_with_retry(symbol, start_date, end_date)] and
    [get_data_with_retry(symbol, start_date, end_date, n)]. *)
Definition get_data_with_retry (symbol start_date end_date : string)
    (max_retries : option Z) : M Value :=
  lru_cache (symbol, start_date, end_date, max_retries)
    (get_data_with_retry_body symbol start_date end_date
       (default default_max_retries max_retries)).

(** ** Aggregation: [get_board_data] *)

Definition names_em : M (list string) :=
  fun w => (stock_board_industry_name_em (trace w), log EvNames w).

(** [datetime.now()] *)
Definition now : M Z :=
  fun w => (Ok (clock (trace w)), log EvNow w).

(** [timedelta(days=n)], in seconds *)
Definition timedelta_days (n : Z) : Z := n * 86400.

(** [series.to_dict()] of a record of [df]: one entry per column. *)
Definition to_dict (df : DataFrame) (r : Row) : Row :=
  set_to_map (fun c => (c, cell r c)) (columns df).

(** [df.iloc[-1].to_dict()] *)
Definition iloc_last (df : Value) : M Row :=
  match df with
  | None => raise AttributeError_iloc
  | Some df =>
      match last (rows df) with
      | Some r => ret (to_dict df r)
      | None => raise IndexError_iloc
      end
  end.

(** The first statement under [try:] for the sector [name], the call
    [df = get_data_with_retry(name, a week ago, today)]: the arguments
    are evaluated from left to right, so the clock is read twice. *)
Definition fetch (name : string) : M Value :=
  let! t1 := now in
  let! t2 := now in
  get_data_with_retry name
    (strftime "%Y%m%d" (t1 - timedelta_days 7))
    (strftime "%Y%m%d" t2) None.

(** The statements under [try:] up to the record that is appended to
    [data_list]: the last record of the table, tagged with the name. *)
Definition latest_of (name : string) : M Row :=
  let! df := fetch name in
  let! latest := iloc_last df in
  ret (<["板块名称" := CStr name]> latest).

(** f"获取 {name} 数据失败: {str(e)}" *)
Definition failure_text (name : string) (e : Exception) : string :=
  "获取 " +:+ name +:+ " 数据失败: " +:+ exc_msg e.

(** One turn of the loop over the directory. *)
Definition board_iteration (name : string) (data_list : list Row)
  : M (list Row) :=
  try_except
    (let! latest := latest_of name in ret (data_list ++ [latest])%list)
    (fun e =>
       let! _ := emit (EvWarning (failure_text name e)) in ret data_list).

(** The undecorated function. *)
Definition get_board_data : M DataFrame :=
  let! board_df := names_em in
  let! data_list := for_each board_df board_iteration [] in
  ret (DataFrame_of_records data_list).

(** [st.cache_data(ttl=3600)] around a function without arguments: while
    Streamlit's store holds a snapshot the function is not run. *)
Definition cache_data (f : M DataFrame) : M DataFrame :=
  fun w =>
    match cache_data_get (trace w) with
    | Some snapshot => (Ok snapshot, w)
    | None => f w
    end.

(** ** Transform: [process_data] *)

Definition numeric_cols : list string :=
  ["开盘"; "收盘"; "最高"; "最低"; "成交量"; "成交额"; "振幅"; "涨跌幅"; "换手率"].

(** [pd.to_numeric(x, errors='coerce')] on one cell. *)
Definition to_numeric (c : Cell) : float :=
  match c with
  | CNum x => x
  | CStr s => default nan (parse_float s)
  | CNone => nan
  end.

(** The value of a cell of a float column. *)
Definition num (r : Row) (c : string) : float :=
  match cell r c with
  | CNum x => x
  | _ => nan
  end.

(** [df[c] = f(df)], row by row. *)
Definition assign (c : string) (f : Row -> float) (df : DataFrame) : DataFrame :=
  {| columns := {[c]} ∪ columns df;
     rows := (fun r => <[c := CNum (f r)]> r) <$> rows df |}.

(** [df[cols] = df[cols].apply(pd.to_numeric, errors='coerce')] *)
Definition coerce (cols : list string) (df : DataFrame) : DataFrame :=
  foldl (fun df c => assign c (fun r => to_numeric (cell r c)) df) df cols.

(** [df[mask(df)]] *)
Definition select (mask : Row -> bool) (df : DataFrame) : DataFrame :=
  {| columns := columns df; rows := List.filter mask (rows df) |}.

(** [pd.isna] *)
Definition isna (c : Cell) : bool :=
  match c with
  | CNum x => is_nan x
  | CStr _ => false
  | CNone => true
  end.

(** [df.dropna(subset=[c])] *)
Definition dropna (c : string) (df : DataFrame) : DataFrame :=
  select (fun r => negb (isna (cell r c))) df.

Definition has_columns (cols : list string) (df : DataFrame) : bool :=
  forallb (fun c => bool_decide (c ∈ columns df)) cols.

Definition process_data (df : DataFrame) : Result DataFrame :=
  if has_columns numeric_cols df then
    let df := coerce numeric_cols df in
    let df := assign "量价强度"
                (fun r => PrimFloat.mul (num r "涨跌幅") (num r "换手率")) df in
    let df := assign "成交额（亿）"
                (fun r => PrimFloat.div (num r "成交额") 1e8%float) df in
    let df := assign "成交量（万手）"
                (fun r => PrimFloat.div (num r "成交量") 10000%float) df in
    let df := assign "涨跌幅"
                (fun r => PrimFloat.mul (num r "涨跌幅") 100%float) df in
    let df := dropna "涨跌幅" df in
    let df := select (fun r => PrimFloat.ltb 0%float (num r "成交量")) df in
    Ok df
  else Raise (KeyError "numeric_cols").

(** ** The data path of [main] *)

(** [df[df['日期'] >= cutoff]]: dates are strings and compare as such; a
    missing date compares false, a number does not compare. *)
Definition date_mask (cutoff : string) (c : Cell) : Result bool :=
  match c with
  | CStr s => Ok (String.leb cutoff s)
  | CNone => Ok false
  | CNum x => if is_nan x then Ok false else Raise TypeError_compare
  end.

Fixpoint date_filter (cutoff : string) (rs : list Row) : Result (list Row) :=
  match rs with
  | [] => Ok []
  | r :: rs' =>
      match date_mask cutoff (cell r "日期"), date_filter cutoff rs' with
      | Ok b, Ok kept => Ok (if b then r :: kept else kept)
      | Raise e, _ => Raise e
      | _, Raise e => Raise e
      end
  end.

(** The values of a float column without its NaNs, and what
    [nunique()], [min()] and [max()] make of them. *)
Definition values (c : string) (df : DataFrame) : list float :=
  List.filter (fun x => negb (is_nan x)) ((fun r => num r c) <$> rows df).

Fixpoint nunique (xs : list float) : nat :=
  match xs with
  | [] => O
  | x :: xs' =>
      if existsb (PrimFloat.eqb x) xs' then nunique xs' else S (nunique xs')
  end.

Definition fmin (xs : list float) : float :=
  match xs with
  | [] => nan
  | x :: xs' => foldl (fun a b => if PrimFloat.ltb b a then b else a) x xs'
  end.

Definition fmax (xs : list float) : float :=
  match xs with
  | [] => nan
  | x :: xs' => foldl (fun a b => if PrimFloat.ltb a b then b else a) x xs'
  end.

Definition range_color (c : string) (df : DataFrame) : float * float :=
  let xs := values c df in
  if (nunique xs =? 1)%nat
  then (PrimFloat.sub (fmin xs) 1%float, PrimFloat.add (fmax xs) 1%float)
  else (fmin xs, fmax xs).

(** [main]: the four sidebar widgets give [color_metric], [size_metric],
    [date_range] and [color_scale]; calls that only lay out the page
    (title, markdown, sidebar, spinner, expander) leave no event. *)
Definition main (color_metric size_metric : string) (date_range : Z)
    (color_scale : string) : M unit :=
  let! _ := now in                               (* the header's time stamp *)
  let! raw_df := cache_data get_board_data in
  let! processed_df := lift (process_data raw_df) in
  let! _ := (if bool_decide ("日期" ∈ columns processed_df) then ret tt
             else raise (KeyError "日期")) in
  let! t := now in
  let cutoff := strftime "%Y-%m-%d" (t - timedelta_days date_range) in
  let! kept := lift (date_filter cutoff (rows processed_df)) in
  let filtered_df := {| columns := columns processed_df; rows := kept |} in
  if empty filtered_df then
    emit (EvWarning "过滤后无有效数据，请调整参数。")
  else
    let! _ := (if bool_decide (color_metric ∈ columns filtered_df) then ret tt
               else raise (KeyError color_metric)) in
    let range := range_color color_metric filtered_df in
    let! drawn :=
      try_except
        (let! _ := emit EvTreemap in
         let! _ := (fun w => (px_treemap (trace w) filtered_df size_metric
                                         color_metric color_scale range, w)) in
         try_except
           (let! _ := emit EvUpdateLayout in
            let! _ := (fun w => (fig_update_layout (trace w) color_metric, w)) in
            ret true)
           (fun e =>
              let! _ := emit (EvError ("更新图表布局时出错: " +:+ exc_msg e)) in
              ret false))
        (fun e =>
           let! _ := emit (EvError ("创建图表时出现错误: " +:+ exc_msg e)) in
           ret false) in
    if drawn : bool then
      let! _ := emit EvPlotlyChart in
      emit EvDataframe
    else ret tt.

End Script.

(** ** Reading a trace *)

Definition is_hist (ev : Event) : bool :=
  match ev with EvHist _ _ _ => true | _ => false end.

(** The number of calls of the historical-data endpoint. *)
Definition hist_calls (t : list Event) : nat := length (List.filter is_hist t).

(** The waits, in order. *)
Fixpoint sleeps_of (t : list Event) : list Z :=
  match t with
  | [] => []
  | EvSleep d :: t' => d :: sleeps_of t'
  | _ :: t' => sleeps_of t'
  end.

(** The warnings, in order. *)
Fixpoint warnings_of (t : list Event) : list string :=
  match t with
  | [] => []
  | EvWarning msg :: t' => msg :: warnings_of t'
  | _ :: t' => warnings_of t'
  end.


(** What [m] failed attempts leave in the trace, the first of them with
    index [attempt]: each call is followed by its wait. *)
Fixpoint failed_attempts (symbol start_date end_date : string) (m : nat)
    (attempt : Z) : list Event :=
  match m with
  | O => []
  | S m' =>
      EvHist symbol start_date end_date :: EvSleep (2 ^ attempt)
        :: failed_attempts symbol start_date end_date m' (attempt + 1)
  end.

(** The keys of a cache, the most recently used first. *)
Definition cache_keys (c : list (Key * Value)) : list Key := fst <$> c.

(** A call by its key, and a run of calls in which, as in the
    aggregation loop, an exception of one call does not stop the next. *)
Definition call `{Env} (k : Key) : M Value :=
  let '(symbol, start_date, end_date, max_retries) := k in
  get_data_with_retry symbol start_date end_date max_retries.

Fixpoint calls `{Env} (ks : list Key) (w : World) : World :=
  match ks with
  | [] => w
  | k :: ks' => calls ks' (snd (call k w))
  end.

(** ** One pass of the aggregation, sector by sector *)

(** The world in which each sector of the directory is reached, paired
    with the sector. *)
Fixpoint pass `{Env} (names : list string) (w : World) : list (string * World) :=
  match names with
  | [] => []
  | name :: names' =>
      (name, w) :: pass names' (snd (board_iteration name [] w))
  end.

(** The fetch of the sector raises. *)
Definition fetch_fails `{Env} (s : string * World) : bool :=
  negb (is_ok (fst (fetch s.1 s.2))).

(** The fetch of the sector raises, or what it returns has no last
    record. *)
Definition no_record `{Env} (s : string * World) : bool :=
  match fst (fetch s.1 s.2) with
  | Ok (Some df) => empty df
  | _ => true
  end.

(** ** Sample environments *)

Definition ConnectionError : Exception :=
  mkException "ConnectionError" "Remote end closed connection".

(** A provider whose historical endpoint fails its first [failures]
    calls and answers [answer] from then on, with [names] as its
    directory; the clock stands still. *)
Definition provider (failures : nat) (answer : DataFrame) (names : list string)
  : Env := {|
  stock_board_industry_hist_em := fun t _ _ _ =>
    if (hist_calls t <? failures)%nat then Raise ConnectionError else Ok answer;
  stock_board_industry_name_em := fun _ => Ok names;
  clock := fun _ => 1700000000;
  strftime := fun format _ =>
    if String.eqb format "%Y%m%d" then "20231114" else "2023-11-14";
  parse_float := fun _ => None;
  cache_data_get := fun _ => None;
  px_treemap := fun _ _ _ _ _ _ => Ok tt;
  fig_update_layout := fun _ _ => Ok tt
|}.

Definition sample_row : Row :=
  {[ "日期" := CStr "2023-11-14"; "开盘" := CNum 10%float;
     "收盘" := CNum 11%float; "最高" := CNum 12%float;
     "最低" := CNum 9%float; "成交量" := CNum 120000%float;
     "成交额" := CNum 2.5e8%float; "振幅" := CNum 1.5%float;
     "涨跌幅" := CNum 2.5%float; "换手率" := CNum 3%float ]}.

Definition sample_columns : gset string :=
  {[ "日期"; "开盘"; "收盘"; "最高"; "最低"; "成交量"; "成交额"; "振幅";
     "涨跌幅"; "换手率" ]}.

Definition sample_table : DataFrame :=
  {| columns := sample_columns; rows := [sample_row] |}.

(** A table of a week without a trading day. *)
Definition no_rows_table : DataFrame :=
  {| columns := sample_columns; rows := [] |}.

Definition fresh : World := {| trace := []; lru := [] |}.

(** Thirty-three sectors. *)
Definition sector_key (i : nat) : Key :=
  (String (Ascii.ascii_of_nat (48 + i)) "", "20231107", "20231114", None).

(** A record whose 涨跌幅 does not read as a number, and one of a day
    without trade. *)
Definition unparsed_row : Row := <["涨跌幅" := CStr "-"]> sample_row.
Definition halted_row : Row := <["成交量" := CNum 0%float]> sample_row.

Definition mixed_table : DataFrame :=
  {| columns := sample_columns; rows := [unparsed_row; sample_row; halted_row] |}.

(** What [process_data] returns for [df] under the sample provider (and
    [df] itself where it raises). *)
Definition processed (df : DataFrame) : DataFrame :=
  match process_data (E := provider 0 sample_table []) df with
  | Ok out => out
  | Raise _ => df
  end.




(** ** Three sentences of the specification, as it words them *)

(** Two calls with one key make one call of the provider at most, and
    the second returns what the first returned, off the network. *)
Definition at_most_one_remote_call `{Env} (k : Key) (w : World) : Prop :=
  let first := call k w in
  let second := call k (snd first) in
  (hist_calls (trace (snd second)) <= hist_calls (trace w) + 1)%nat
  ∧ trace (snd second) = trace (snd first)
  ∧ ∃ v, fst first = Ok v ∧ fst second = Ok v.

(** What is cached stays cached, whatever else is fetched. *)
Definition never_evicted `{Env} (k : Key) (ks : list Key) (w : World) : Prop :=
  ∀ v, cache_get k (lru w) = Some v ->
       cache_get k (lru (calls ks w)) = Some v.

(** The table has a row for each sector but those whose fetch raises,
    and there is a warning for each of these. *)
Definition rows_but_fetch_failures `{Env} (w : World) : Prop :=
  ∀ names w1,
    names_em w = (Ok names, w1) ->
    ∃ df w',
      get_board_data w = (Ok df, w')
      ∧ length (rows df)
        = (length names - length (List.filter fetch_fails (pass names w1)))%nat
      ∧ length (warnings_of (trace w'))
        = (length (warnings_of (trace w))
           + length (List.filter fetch_fails (pass names w1)))%nat.

(** The entry of [k] holds [v] and every entry ahead of it (used after
    it) has its key in [S]; no key is held twice. *)
Definition recent (k : Key) (v : Value) (S : gset Key) (c : list (Key * Value))
  : Prop :=
  NoDup (cache_keys c)
  ∧ ∃ ahead rest, c = (ahead ++ (k, v) :: rest)%list
                  ∧ ∀ k', k' ∈ cache_keys ahead -> k' ∈ S.

(** The keys of [ks] other than [k]. *)
Definition others (k : Key) (ks : list Key) : gset Key :=
  list_to_set (filter (fun k' => k' ≠ k) ks).

(** ** The transform, read row by row *)

(** What the column statements of [process_data] make of one record. *)
Definition coerce_row `{Env} (cols : list string) (r : Row) : Row :=
  foldl (fun r c => <[c := CNum (to_numeric (cell r c))]> r) r cols.

Definition derive `{Env} (r : Row) : Row :=
  let r := coerce_row numeric_cols r in
  let r := <["量价强度" := CNum (PrimFloat.mul (num r "涨跌幅") (num r "换手率"))]> r in
  let r := <["成交额（亿）" := CNum (PrimFloat.div (num r "成交额") 1e8%float)]> r in
  let r := <["成交量（万手）" := CNum (PrimFloat.div (num r "成交量") 10000%float)]> r in
  <["涨跌幅" := CNum (PrimFloat.mul (num r "涨跌幅") 100%float)]> r.

(** The two conditions of the cleaning, on a derived record. *)
Definition valid (r : Row) : bool :=
  negb (isna (cell r "涨跌幅")) && PrimFloat.ltb 0%float (num r "成交量").

(** ** More ways to read a trace *)

(** The seconds slept. *)
Definition total_sleep (t : list Event) : Z := foldr Z.add 0 (sleeps_of t).

(** The messages of [st.error], in order. *)
Fixpoint errors_of (t : list Event) : list string :=
  match t with
  | [] => []
  | EvError msg :: t' => msg :: errors_of t'
  | _ :: t' => errors_of t'
  end.

(** From [w] to [w'] the trace gained [calls] calls of the historical
    endpoint at most, and [seconds] seconds of sleep at most. *)
Definition costs (calls : nat) (seconds : Z) (w w' : World) : Prop :=
  ∃ evs, trace w' = (trace w ++ evs)%list
         ∧ (hist_calls evs <= calls)%nat
         ∧ total_sleep evs <= seconds.

(** ** More sample environments *)

Definition directory_down : Exception :=
  mkException "ConnectionError" "Max retries exceeded with url: /api/qt/clist/get".

(** The sample provider with its directory out of reach. *)
Definition offline : Env := {|
  stock_board_industry_hist_em := fun _ _ _ _ => Ok sample_table;
  stock_board_industry_name_em := fun _ => Raise directory_down;
  clock := fun _ => 1700000000;
  strftime := fun format _ =>
    if String.eqb format "%Y%m%d" then "20231114" else "2023-11-14";
  parse_float := fun _ => None;
  cache_data_get := fun _ => None;
  px_treemap := fun _ _ _ _ _ _ => Ok tt;
  fig_update_layout := fun _ _ => Ok tt
|}.

(** The sample provider with a plotting library that may fail at either
    of its two calls. *)
Definition studio (treemap layout : Result unit) : Env := {|
  stock_board_industry_hist_em := fun _ _ _ _ => Ok sample_table;
  stock_board_industry_name_em := fun _ => Ok ["小金属"; "银行"];
  clock := fun _ => 1700000000;
  strftime := fun format _ =>
    if String.eqb format "%Y%m%d" then "20231114" else "2023-11-14";
  parse_float := fun _ => None;
  cache_data_get := fun _ => None;
  px_treemap := fun _ _ _ _ _ _ => treemap;
  fig_update_layout := fun _ _ => layout
|}.

Definition ValueError : Exception :=
  mkException "ValueError" "Invalid property specified for object of type Figure".

(** A table of two days, the later one last. *)
Definition earlier_row : Row :=
  <["日期" := CStr "2023-11-13"]> (<["收盘" := CNum 10.5%float]> sample_row).

Definition two_day_table : DataFrame :=
  {| columns := sample_columns; rows := [earlier_row; sample_row] |}.

(** The three columns [process_data] adds. *)
Definition derived_cols : list string :=
  ["量价强度"; "成交额（亿）"; "成交量（万手）"].

(** A record of the day [cutoff] or later, by its 日期 as a string. *)
Definition on_or_after (cutoff : string) (r : Row) : bool :=
  match cell r "日期" with
  | CStr s => String.leb cutoff s
  | _ => false
  end.

(** A call of the provider, or a wait for it. *)
Definition is_provider (ev : Event) : bool :=
  match ev with
  | EvHist _ _ _ | EvNames | EvSleep _ => true
  | _ => false
  end.

(** The sample provider while Streamlit's store holds [snapshot]. *)
Definition replaying (snapshot : DataFrame) : Env := {|
  stock_board_industry_hist_em := fun _ _ _ _ => Ok sample_table;
  stock_board_industry_name_em := fun _ => Ok ["小金属"; "银行"];
  clock := fun _ => 1700000000;
  strftime := fun format _ =>
    if String.eqb format "%Y%m%d" then "20231114" else "2023-11-14";
  parse_float := fun _ => None;
  cache_data_get := fun _ => Some snapshot;
  px_treemap := fun _ _ _ _ _ _ => Ok tt;
  fig_update_layout := fun _ _ => Ok tt
|}.

(** ** Passes on one day *)

(** The world after the turns of the loop for [names]. *)
Fixpoint pass_end `{Env} (names : list string) (w : World) : World :=
  match names with
  | [] => w
  | name :: names' => pass_end names' (snd (board_iteration name [] w))
  end.

(** The key of the call the loop makes for the sector [name] while its
    two date arguments read [start_date] and [end_date]. *)
Definition key_of (start_date end_date name : string) : Key :=
  (name, start_date, end_date, None).

(** The clock stays within one day: whenever the loop computes its two
    date arguments they are [start_date] and [end_date]. *)
Definition same_day `{Env} (start_date end_date : string) : Prop :=
  ∀ t, strftime "%Y%m%d" (clock t - timedelta_days 7) = start_date
       ∧ strftime "%Y%m%d" (clock t) = end_date.

(** The provider answers every call for a sector of [names]. *)
Definition answers `{Env} (start_date end_date : string) (names : list string)
  : Prop :=
  ∀ t name, name ∈ names ->
            is_ok (stock_board_industry_hist_em t name start_date end_date)
            = true.

(** A directory of [n] sectors. *)
Definition sector_name (i : nat) : string :=
  String (Ascii.ascii_of_nat (48 + i)) "".

Definition sectors (first n : nat) : list string :=
  sector_name <$> seq first n.

(** * Proofs *)

(** ** The retry loop *)

Section Retry.
Context {E : Env}.
Variables symbol start_date end_date : string.

Local Abbreviation hist t := (stock_board_industry_hist_em t symbol start_date end_date).
Local Abbreviation loop := (attempts symbol start_date end_date).
Local Abbreviation failed := (failed_attempts symbol start_date end_date).
Local Abbreviation Hist := (EvHist symbol start_date end_date).

(** One turn of the loop. *)
Lemma attempts_S max_retries remaining attempt w :
  loop max_retries (S remaining) attempt w =
    match hist (trace w) with
    | Ok df => (Ok (Some df), log Hist w)
    | Raise e =>
        if attempt =? max_retries - 1 then (Raise e, log Hist w)
        else loop max_retries remaining (attempt + 1)
               (log (EvSleep (2 ^ attempt)) (log Hist w))
    end.
Proof.
  simpl. unfold try_except, bind, hist_em, ret, raise, sleep, emit.
  destruct (hist (trace w)); [reflexivity|].
  destruct (attempt =? max_retries - 1); reflexivity.
Qed.

(** The loop does not touch the cache. *)
Lemma attempts_lru max_retries remaining attempt w :
  lru (snd (loop max_retries remaining attempt w)) = lru w.
Proof.
  revert attempt w. induction remaining as [|r IH]; intros a w; [reflexivity|].
  rewrite attempts_S. destruct (hist (trace w)); [reflexivity|].
  destruct (a =? max_retries - 1); [reflexivity|].
  rewrite IH. reflexivity.
Qed.

(** It only adds to the trace: calls of the provider, one per turn at
    most, and waits. *)
Lemma attempts_trace max_retries remaining attempt w :
  ∃ evs, trace (snd (loop max_retries remaining attempt w)) = (trace w ++ evs)%list
         ∧ (hist_calls evs <= remaining)%nat
         ∧ warnings_of evs = [].
Proof.
  revert attempt w. induction remaining as [|r IH]; intros a w.
  - exists []. simpl. rewrite app_nil_r.
    split; [reflexivity | split; [apply Nat.le_refl | reflexivity]].
  - rewrite attempts_S. destruct (hist (trace w)).
    + exists [Hist]. split; [reflexivity | unfold hist_calls; simpl; split; [lia|reflexivity]].
    + destruct (a =? max_retries - 1).
      * exists [Hist]. split; [reflexivity | unfold hist_calls; simpl; split; [lia|reflexivity]].
      * destruct (IH (a + 1) (log (EvSleep (2 ^ a)) (log Hist w)))
          as (evs & Ht & Hn & Hw).
        exists (Hist :: EvSleep (2 ^ a) :: evs). split; [|split].
        -- rewrite Ht. simpl. rewrite <- !app_assoc. reflexivity.
        -- unfold hist_calls in *. simpl. lia.
        -- simpl. exact Hw.
Qed.

(** With one attempt or more to go, the loop ends in a [return] or a
    [raise] of its body, never by running out. *)
Lemma attempts_never_none max_retries remaining attempt w :
  attempt + Z.of_nat remaining = max_retries ->
  (0 < remaining)%nat ->
  fst (loop max_retries remaining attempt w) ≠ Ok None.
Proof.
  revert attempt w. induction remaining as [|r IH]; intros a w Hn Hr; [lia|].
  rewrite attempts_S. destruct (hist (trace w)); [discriminate|].
  destruct (Z.eqb_spec a (max_retries - 1)); [discriminate|].
  apply IH; lia.
Qed.

(** [m] failures, then an answer. *)
Lemma attempts_recovers max_retries (m : nat) df :
  ∀ remaining attempt w,
    (m < remaining)%nat ->
    attempt + Z.of_nat remaining = max_retries ->
    (∀ i, (i < m)%nat ->
          is_ok (hist (trace w ++ failed i attempt)%list) = false) ->
    hist (trace w ++ failed m attempt)%list = Ok df ->
    loop max_retries remaining attempt w =
      (Ok (Some df),
       {| trace := (trace w ++ failed m attempt ++ [Hist])%list; lru := lru w |}).
Proof.
  induction m as [|m IH]; intros r a w Hm Hn Hfail Hok;
    (destruct r as [|r]; [lia|]); rewrite attempts_S.
  - simpl in Hok. rewrite app_nil_r in Hok. rewrite Hok. reflexivity.
  - pose proof (Hfail O ltac:(lia)) as H0. simpl in H0. rewrite app_nil_r in H0.
    destruct (hist (trace w)); [discriminate|].
    destruct (Z.eqb_spec a (max_retries - 1)); [lia|].
    rewrite (IH r (a + 1)); simpl.
    + rewrite <- !app_assoc. reflexivity.
    + lia.
    + lia.
    + intros i Hi. rewrite <- !app_assoc. apply (Hfail (S i)). lia.
    + rewrite <- !app_assoc. exact Hok.
Qed.

(** Failures only: the error of the last attempt is raised, and no wait
    follows it. *)
Lemma attempts_gives_up max_retries :
  ∀ remaining (e : nat -> Exception) attempt w,
    attempt + Z.of_nat (S remaining) = max_retries ->
    (∀ i, (i <= remaining)%nat ->
          hist (trace w ++ failed i attempt)%list = Raise (e i)) ->
    loop max_retries (S remaining) attempt w =
      (Raise (e remaining),
       {| trace := (trace w ++ failed remaining attempt ++ [Hist])%list;
          lru := lru w |}).
Proof.
  induction remaining as [|r IH]; intros e a w Hn Hfail; rewrite attempts_S;
    pose proof (Hfail O ltac:(lia)) as H0; simpl in H0;
    rewrite app_nil_r in H0; rewrite H0.
  - destruct (Z.eqb_spec a (max_retries - 1)); [reflexivity|lia].
  - destruct (Z.eqb_spec a (max_retries - 1)); [lia|].
    rewrite (IH (e ∘ S) (a + 1)); simpl.
    + rewrite <- !app_assoc. reflexivity.
    + lia.
    + intros i Hi. rewrite <- !app_assoc. apply (Hfail (S i)). lia.
Qed.

(** The waits of [m] failed attempts double from [2 ^ attempt] on. *)
Lemma sleeps_of_failed_attempts (m : nat) :
  ∀ attempt tail,
    sleeps_of (failed m attempt ++ tail)
    = (((fun i => 2 ^ (attempt + Z.of_nat i)) <$> seq 0 m) ++ sleeps_of tail)%list.
Proof.
  induction m as [|m IH]; intros a tail; [reflexivity|].
  simpl. rewrite IH. rewrite Z.add_0_r. f_equal. f_equal.
  rewrite <- fmap_S_seq, <- list_fmap_compose.
  apply list_fmap_ext. intros _ i _. simpl. f_equal. lia.
Qed.

Lemma hist_calls_failed_attempts (m : nat) :
  ∀ attempt tail,
    hist_calls (failed m attempt ++ tail) = (m + hist_calls tail)%nat.
Proof.
  induction m as [|m IH]; intros a tail; [reflexivity|].
  unfold hist_calls in *. simpl. rewrite IH. reflexivity.
Qed.

End Retry.

(** ** The cache *)

Lemma cache_get_None_del k c : cache_get k c = None -> cache_del k c = c.
Proof.
  unfold cache_del. induction c as [|[k' v] c IH]; simpl; intros H; [reflexivity|].
  destruct (decide (k' = k)); [discriminate|].
  rewrite filter_cons_True by exact n. f_equal. exact (IH H).
Qed.

Lemma cache_get_del k c : cache_get k (cache_del k c) = None.
Proof.
  unfold cache_del. induction c as [|[k' v] c IH]; [reflexivity|].
  destruct (decide (k' = k)) as [->|Hne].
  - rewrite filter_cons_False; [exact IH | simpl; tauto].
  - rewrite filter_cons_True by exact Hne. simpl.
    destruct (decide (k' = k)); [contradiction | exact IH].
Qed.

Lemma cache_get_None_keys k c : cache_get k c = None <-> k ∉ cache_keys c.
Proof.
  unfold cache_keys. induction c as [|[k' v] c IH]; simpl.
  - split; [intros _; apply not_elem_of_nil | reflexivity].
  - rewrite not_elem_of_cons. destruct (decide (k' = k)) as [->|Hne].
    + split; [discriminate | intros [H _]; contradiction].
    + rewrite IH. split; [intros H; split; [congruence | exact H] | tauto].
Qed.

Lemma cache_get_removelast k c :
  cache_get k c = None -> cache_get k (removelast c) = None.
Proof.
  induction c as [|[k' v] c IH]; [reflexivity|].
  intros H. simpl in H. destruct (decide (k' = k)) as [|Hne]; [discriminate|].
  destruct c as [|e c]; [reflexivity|].
  change (removelast ((k', v) :: e :: c)) with ((k', v) :: removelast (e :: c)).
  simpl cache_get at 1. destruct (decide (k' = k)); [contradiction|].
  exact (IH H).
Qed.

(** After a miss the key is at the most-recent end, once. *)
Lemma cache_put_miss k v c :
  cache_get k c = None ->
  ∃ c', cache_put k v c = (k, v) :: c' ∧ cache_get k c' = None.
Proof.
  intros H. unfold cache_put. rewrite H.
  destruct (maxsize <=? length c)%nat; eexists; (split; [reflexivity|]);
    [apply cache_get_removelast|]; exact H.
Qed.

Section Acquisition.
Context {E : Env}.
Variables (symbol start_date end_date : string) (max_retries : option Z).

Local Abbreviation key := (symbol, start_date, end_date, max_retries).
Local Abbreviation n := (default default_max_retries max_retries).
Local Abbreviation get := (get_data_with_retry symbol start_date end_date max_retries).
Local Abbreviation hist t := (stock_board_industry_hist_em t symbol start_date end_date).
Local Abbreviation failed := (failed_attempts symbol start_date end_date).
Local Abbreviation Hist := (EvHist symbol start_date end_date).

Lemma get_data_with_retry_hit w v :
  cache_get key (lru w) = Some v ->
  get w = (Ok v, set_lru (cache_touch key v (lru w)) w).
Proof.
  intros H. unfold get_data_with_retry, lru_cache. rewrite H. reflexivity.
Qed.

Lemma get_data_with_retry_miss w :
  cache_get key (lru w) = None ->
  get w =
    match get_data_with_retry_body symbol start_date end_date n w with
    | (Ok v, w') => (Ok v, set_lru (cache_put key v (lru w')) w')
    | (Raise e, w') => (Raise e, w')
    end.
Proof.
  intros H. unfold get_data_with_retry, lru_cache. rewrite H. reflexivity.
Qed.

(** A call only adds to the trace, at most [max_retries] calls of the
    provider among what it adds. *)
Lemma get_data_with_retry_trace w :
  ∃ evs, trace (snd (get w)) = (trace w ++ evs)%list
         ∧ (hist_calls evs <= Z.to_nat n)%nat
         ∧ warnings_of evs = [].
Proof.
  destruct (cache_get key (lru w)) as [v|] eqn:Hc.
  - rewrite (get_data_with_retry_hit _ _ Hc). exists []. simpl.
    rewrite app_nil_r.
    split; [reflexivity | unfold hist_calls; simpl; split; [lia|reflexivity]].
  - rewrite (get_data_with_retry_miss _ Hc). unfold get_data_with_retry_body.
    destruct (attempts_trace symbol start_date end_date n (Z.to_nat n) 0 w)
      as (evs & Ht & Hn).
    exists evs. split; [|exact Hn].
    destruct (attempts _ _ _ _ _ _ w) as [[v|e] w']; exact Ht.
Qed.

(** A result that was returned is at the most-recent end of the cache. *)
Lemma get_data_with_retry_cached w v w' :
  get w = (Ok v, w') ->
  ∃ c, lru w' = (key, v) :: c ∧ cache_get key c = None.
Proof.
  destruct (cache_get key (lru w)) as [v0|] eqn:Hc.
  - rewrite (get_data_with_retry_hit _ _ Hc). intros [= <- <-].
    exists (cache_del key (lru w)). split; [reflexivity | apply cache_get_del].
  - rewrite (get_data_with_retry_miss _ Hc). unfold get_data_with_retry_body.
    pose proof (attempts_lru symbol start_date end_date n (Z.to_nat n) 0 w) as Hl.
    destruct (attempts _ _ _ _ _ _ w) as [[v1|e] w1]; [|discriminate].
    intros [= <- <-]. simpl in *. rewrite Hl.
    apply cache_put_miss. exact Hc.
Qed.

End Acquisition.

(** ** Claims on [get_data_with_retry] *)

Section AcquisitionClaims.
Context {E : Env}.
Variables (symbol start_date end_date : string) (max_retries : option Z).

Local Abbreviation key := (symbol, start_date, end_date, max_retries).
Local Abbreviation n := (default default_max_retries max_retries).
Local Abbreviation get := (get_data_with_retry symbol start_date end_date max_retries).
Local Abbreviation hist t := (stock_board_industry_hist_em t symbol start_date end_date).
Local Abbreviation failed := (failed_attempts symbol start_date end_date).
Local Abbreviation Hist := (EvHist symbol start_date end_date).

(** C3.  For every [m] with [0 <= m < max_retries]: when the key is not
    cached and the provider fails the first [m] attempts and answers
    [df] at the next, [get_data_with_retry] returns [df]; what it adds
    to the trace is [m] times a call followed by its wait and then the
    call that succeeds, so that there are exactly [m] waits, of
    [2^0, 2^1, ..., 2^(m-1)] seconds in this order, each after a failed
    attempt and before the next attempt. *)
Theorem get_data_with_retry_backoff (m : nat) (df : DataFrame) (w : World) :
  Z.of_nat m < n ->
  cache_get key (lru w) = None ->
  (∀ i, (i < m)%nat -> is_ok (hist (trace w ++ failed i 0)%list) = false) ->
  hist (trace w ++ failed m 0)%list = Ok df ->
  ∃ w',
    get w = (Ok (Some df), w')
    ∧ trace w' = (trace w ++ failed m 0 ++ [Hist])%list
    ∧ sleeps_of (failed m 0 ++ [Hist]) = (fun i => 2 ^ Z.of_nat i) <$> seq 0 m
    ∧ length (sleeps_of (failed m 0 ++ [Hist])) = m.
Proof.
  intros Hm Hc Hfail Hok.
  rewrite (get_data_with_retry_miss _ _ _ _ _ Hc). unfold get_data_with_retry_body.
  rewrite (attempts_recovers symbol start_date end_date n m df
             (Z.to_nat n) 0 w); [|lia|lia|exact Hfail|exact Hok].
  eexists. split; [reflexivity|]. split; [reflexivity|].
  assert (Hs : sleeps_of (failed m 0 ++ [Hist])
               = (fun i => 2 ^ Z.of_nat i) <$> seq 0 m).
  { rewrite sleeps_of_failed_attempts. simpl. rewrite app_nil_r.
    apply list_fmap_ext. intros _ i _. reflexivity. }
  split; [exact Hs|]. rewrite Hs, length_fmap, length_seq. reflexivity.
Qed.

(** C4.  When [max_retries] is one or more, the key is not cached and
    the provider fails every one of the [max_retries] attempts, the
    [i]-th with the error [e i], [get_data_with_retry] raises the error
    of the last attempt after [max_retries] calls and [max_retries - 1]
    waits, none of them after the last call, and the cache is as it was:
    nothing is stored for the key. *)
Theorem get_data_with_retry_exhausted (e : nat -> Exception) (w : World) :
  1 <= n ->
  cache_get key (lru w) = None ->
  (∀ i, (i < Z.to_nat n)%nat -> hist (trace w ++ failed i 0)%list = Raise (e i)) ->
  ∃ w',
    get w = (Raise (e (Z.to_nat n - 1)%nat), w')
    ∧ trace w' = (trace w ++ failed (Z.to_nat n - 1) 0 ++ [Hist])%list
    ∧ length (sleeps_of (failed (Z.to_nat n - 1) 0 ++ [Hist])) = (Z.to_nat n - 1)%nat
    ∧ hist_calls (failed (Z.to_nat n - 1) 0 ++ [Hist]) = Z.to_nat n
    ∧ lru w' = lru w
    ∧ cache_get key (lru w') = None.
Proof.
  intros Hn Hc Hfail.
  rewrite (get_data_with_retry_miss _ _ _ _ _ Hc). unfold get_data_with_retry_body.
  destruct (Z.to_nat n) as [|r] eqn:Hr; [lia|].
  rewrite (attempts_gives_up symbol start_date end_date n r e 0 w);
    [|lia|intros i Hi; apply Hfail; lia].
  replace (S r - 1)%nat with r by lia.
  eexists. split; [reflexivity|]. split; [reflexivity|].
  split; [|split; [|split; [reflexivity | exact Hc]]].
  - rewrite sleeps_of_failed_attempts. simpl.
    rewrite app_nil_r, length_fmap, length_seq. reflexivity.
  - rewrite hist_calls_failed_attempts. unfold hist_calls. simpl. lia.
Qed.

(** C1, amended.  When the first of two calls with one key returns a
    value, the second returns the same value out of the cache and leaves
    the world as it is: no call of the provider, no wait, no event at
    all.  The two calls together call the provider [max_retries] times
    at most (one call per attempt of the first). *)
Theorem get_data_with_retry_memoized (w w1 : World) (v : Value) :
  get w = (Ok v, w1) ->
  get w1 = (Ok v, w1)
  ∧ ∃ evs, trace w1 = (trace w ++ evs)%list
           ∧ (hist_calls evs <= Z.to_nat n)%nat.
Proof.
  intros H. split.
  - destruct (get_data_with_retry_cached _ _ _ _ _ _ _ H) as (c & Hl & Hc).
    assert (Hhit : cache_get key (lru w1) = Some v).
    { rewrite Hl. simpl. destruct (decide (key = key)); [reflexivity|contradiction]. }
    rewrite (get_data_with_retry_hit _ _ _ _ _ _ Hhit).
    f_equal. destruct w1 as [t l]. unfold set_lru. simpl in *. f_equal.
    rewrite Hl. unfold cache_touch, cache_del.
    rewrite filter_cons_False by (simpl; tauto).
    fold (cache_del key c). rewrite (cache_get_None_del _ _ Hc). reflexivity.
  - pose proof (get_data_with_retry_trace symbol start_date end_date max_retries w)
      as (evs & Ht & Hn & _).
    rewrite H in Ht. exists evs. split; [exact Ht | exact Hn].
Qed.

End AcquisitionClaims.

(** The provider fails twice and answers at the third attempt: waits of
    one and two seconds. *)
Lemma get_data_with_retry_backoff_witness :
  ∃ w',
    get_data_with_retry (E := provider 2 sample_table [])
      "小金属" "20231107" "20231114" None fresh = (Ok (Some sample_table), w')
    ∧ trace w' = [EvHist "小金属" "20231107" "20231114"; EvSleep 1;
                  EvHist "小金属" "20231107" "20231114"; EvSleep 2;
                  EvHist "小金属" "20231107" "20231114"]
    ∧ sleeps_of (failed_attempts "小金属" "20231107" "20231114" 2 0
                 ++ [EvHist "小金属" "20231107" "20231114"]) = [1; 2]
    ∧ length (sleeps_of (failed_attempts "小金属" "20231107" "20231114" 2 0
                         ++ [EvHist "小金属" "20231107" "20231114"])) = 2%nat.
Proof.
  apply (@get_data_with_retry_backoff (provider 2 sample_table [])
           "小金属" "20231107" "20231114" None 2 sample_table fresh).
  - reflexivity.
  - reflexivity.
  - intros [|[|i]] Hi; [reflexivity | reflexivity | lia].
  - reflexivity.
Defined.

(** The provider is down for all three attempts of the default. *)
Lemma get_data_with_retry_exhausted_witness :
  ∃ w',
    get_data_with_retry (E := provider 3 sample_table [])
      "小金属" "20231107" "20231114" None fresh = (Raise ConnectionError, w')
    ∧ trace w' = [EvHist "小金属" "20231107" "20231114"; EvSleep 1;
                  EvHist "小金属" "20231107" "20231114"; EvSleep 2;
                  EvHist "小金属" "20231107" "20231114"]
    ∧ length (sleeps_of (failed_attempts "小金属" "20231107" "20231114" 2 0
                         ++ [EvHist "小金属" "20231107" "20231114"])) = 2%nat
    ∧ hist_calls (failed_attempts "小金属" "20231107" "20231114" 2 0
                  ++ [EvHist "小金属" "20231107" "20231114"]) = 3%nat
    ∧ lru w' = []
    ∧ cache_get ("小金属", "20231107", "20231114", None) (lru w') = None.
Proof.
  apply (@get_data_with_retry_exhausted (provider 3 sample_table [])
           "小金属" "20231107" "20231114" None (fun _ => ConnectionError) fresh).
  - discriminate.
  - reflexivity.
  - intros [|[|[|i]]] Hi; [reflexivity | reflexivity | reflexivity |].
    exfalso. vm_compute in Hi. lia.
Defined.

(** One failure, then the answer: the second call is served from the
    cache. *)
Lemma get_data_with_retry_memoized_witness :
  let w1 := snd (get_data_with_retry (E := provider 1 sample_table [])
                   "小金属" "20231107" "20231114" None fresh) in
  get_data_with_retry (E := provider 1 sample_table [])
    "小金属" "20231107" "20231114" None w1 = (Ok (Some sample_table), w1)
  ∧ ∃ evs, trace w1 = (trace fresh ++ evs)%list ∧ (hist_calls evs <= 3)%nat.
Proof.
  apply (@get_data_with_retry_memoized (provider 1 sample_table [])
           "小金属" "20231107" "20231114" None fresh).
  reflexivity.
Defined.

(** C1 as worded fails: with a provider that is down for the first four
    calls, the first call raises after three attempts, nothing is
    cached, and the second call goes to the network again (five calls of
    the provider in all). *)
Lemma at_most_one_remote_call_fails :
  ¬ at_most_one_remote_call (H := provider 4 sample_table [])
      ("小金属", "20231107", "20231114", None) fresh.
Proof.
  unfold at_most_one_remote_call. intros (Hcalls & _).
  vm_compute in Hcalls. lia.
Qed.

(** ** Which entries the cache gives up *)

Lemma cache_keys_del k c : cache_keys (cache_del k c) `sublist_of` cache_keys c.
Proof. unfold cache_keys, cache_del. apply fmap_sublist, sublist_filter. Qed.

Lemma cache_keys_removelast c :
  cache_keys (removelast c) `sublist_of` cache_keys c.
Proof.
  unfold cache_keys. apply fmap_sublist.
  rewrite removelast_firstn_len. apply sublist_take.
Qed.

Lemma cache_keys_app c1 c2 :
  cache_keys (c1 ++ c2) = (cache_keys c1 ++ cache_keys c2)%list.
Proof. unfold cache_keys. apply fmap_app. Qed.

Lemma cache_get_app_skip k v ahead rest :
  k ∉ cache_keys ahead -> cache_get k (ahead ++ (k, v) :: rest) = Some v.
Proof.
  induction ahead as [|[k' v'] ahead IH]; simpl; intros Hk.
  - destruct (decide (k = k)); [reflexivity | contradiction].
  - apply not_elem_of_cons in Hk as [Hne Hk].
    destruct (decide (k' = k)); [congruence | exact (IH Hk)].
Qed.

Lemma cache_del_app k c1 c2 :
  cache_del k (c1 ++ c2) = (cache_del k c1 ++ cache_del k c2)%list.
Proof. unfold cache_del. apply filter_app. Qed.

Lemma cache_keys_del_elem k k' c :
  k' ∈ cache_keys (cache_del k c) -> k' ∈ cache_keys c.
Proof. intros H. eapply elem_of_sublist; [exact H | apply cache_keys_del]. Qed.

Section Recent.
Variables (k : Key) (v : Value).

Lemma recent_ahead c ahead rest
    (Hnd : NoDup (cache_keys c)) (Hc : c = (ahead ++ (k, v) :: rest)%list) :
  (k ∉ cache_keys ahead) ∧ NoDup (cache_keys ahead).
Proof.
  subst c. rewrite cache_keys_app in Hnd.
  apply NoDup_app in Hnd as (Ha & Hdis & _). split; [|exact Ha].
  intros Hin. apply (Hdis _ Hin). simpl. apply elem_of_cons. left. reflexivity.
Qed.

Lemma recent_get S c : recent k v S c -> cache_get k c = Some v.
Proof.
  intros (Hnd & ahead & rest & Hc & _).
  destruct (recent_ahead c ahead rest Hnd Hc) as [Hk _].
  rewrite Hc. apply cache_get_app_skip. exact Hk.
Qed.

(** A hit on [k] itself. *)
Lemma recent_touch_same S c : recent k v S c -> recent k v S (cache_touch k v c).
Proof.
  intros (Hnd & _). unfold cache_touch. split.
  - unfold cache_keys. simpl. apply NoDup_cons. split.
    + apply cache_get_None_keys, cache_get_del.
    + eapply sublist_NoDup; [exact Hnd | apply cache_keys_del].
  - exists [], (cache_del k c). split; [reflexivity|].
    intros k' Hk'. apply elem_of_nil in Hk'. contradiction.
Qed.

(** A hit on another key. *)
Lemma recent_touch_other S c k' v' :
  k' ≠ k -> k' ∈ S -> recent k v S c -> recent k v S (cache_touch k' v' c).
Proof.
  intros Hne HS (Hnd & ahead & rest & Hc & Hin). unfold cache_touch. split.
  - unfold cache_keys. simpl. apply NoDup_cons. split.
    + apply cache_get_None_keys, cache_get_del.
    + eapply sublist_NoDup; [exact Hnd | apply cache_keys_del].
  - exists ((k', v') :: cache_del k' ahead), (cache_del k' rest). split.
    + rewrite Hc, cache_del_app. simpl. f_equal. f_equal.
      unfold cache_del. rewrite filter_cons_True by (simpl; congruence).
      reflexivity.
    + intros k'' Hk''. unfold cache_keys in Hk''. simpl in Hk''.
      apply elem_of_cons in Hk'' as [->|Hk'']; [exact HS|].
      apply Hin. eapply cache_keys_del_elem. exact Hk''.
Qed.

(** A miss on another key, stored. *)
Lemma recent_put S c k' v' :
  k' ∈ S -> (size S < maxsize)%nat -> cache_get k' c = None ->
  recent k v S c -> recent k v S (cache_put k' v' c).
Proof.
  intros HS Hsize Hmiss (Hnd & ahead & rest & Hc & Hin).
  destruct (recent_ahead c ahead rest Hnd Hc) as [Hk Hnda].
  pose proof (proj1 (cache_get_None_keys k' c) Hmiss) as Hk'.
  unfold cache_put. rewrite Hmiss.
  destruct (Nat.leb_spec maxsize (length c)) as [Hfull|Hroom].
  - destruct rest as [|e rest].
    + exfalso.
      assert (Hnd' : NoDup (k' :: cache_keys ahead)).
      { apply NoDup_cons. split; [|exact Hnda].
        intros Hin'. apply Hk'. rewrite Hc, cache_keys_app.
        apply elem_of_app. left. exact Hin'. }
      assert (Hsub : (list_to_set (k' :: cache_keys ahead) : gset Key) ⊆ S).
      { intros x Hx. apply elem_of_list_to_set in Hx.
        apply elem_of_cons in Hx as [->|Hx]; [exact HS | exact (Hin _ Hx)]. }
      apply subseteq_size in Hsub.
      rewrite (size_list_to_set _ Hnd') in Hsub.
      rewrite Hc, length_app in Hfull. unfold cache_keys in Hsub.
      simpl in Hfull, Hsub. rewrite length_fmap in Hsub. lia.
    + split.
      * unfold cache_keys. simpl. apply NoDup_cons. split.
        -- apply cache_get_None_keys, cache_get_removelast, Hmiss.
        -- eapply sublist_NoDup; [exact Hnd | apply cache_keys_removelast].
      * exists ((k', v') :: ahead), (removelast (e :: rest)). split.
        -- rewrite Hc. rewrite removelast_app by discriminate. reflexivity.
        -- intros k'' Hk''. unfold cache_keys in Hk''. simpl in Hk''.
           apply elem_of_cons in Hk'' as [->|Hk'']; [exact HS | exact (Hin _ Hk'')].
  - split.
    + unfold cache_keys. simpl. apply NoDup_cons. split; [exact Hk' | exact Hnd].
    + exists ((k', v') :: ahead), rest. split; [rewrite Hc; reflexivity|].
      intros k'' Hk''. unfold cache_keys in Hk''. simpl in Hk''.
      apply elem_of_cons in Hk'' as [->|Hk'']; [exact HS | exact (Hin _ Hk'')].
Qed.

Context {E : Env}.

(** One call, of any key, under any provider. *)
Lemma recent_call S k' w :
  (k' ≠ k -> k' ∈ S) -> (size S < maxsize)%nat ->
  recent k v S (lru w) -> recent k v S (lru (snd (call k' w))).
Proof.
  intros HS Hsize Hrec. destruct k' as [[[s a] b] mr]. unfold call.
  destruct (cache_get (s, a, b, mr) (lru w)) as [v'|] eqn:Hc.
  - rewrite (get_data_with_retry_hit _ _ _ _ _ _ Hc). simpl.
    destruct (decide ((s, a, b, mr) = k)) as [Heq|Hne].
    + rewrite Heq in *. rewrite (recent_get _ _ Hrec) in Hc.
      injection Hc as <-. apply recent_touch_same, Hrec.
    + apply recent_touch_other; [exact Hne | exact (HS Hne) | exact Hrec].
  - assert (Hne : (s, a, b, mr) ≠ k).
    { intros Heq. rewrite Heq in Hc. rewrite (recent_get _ _ Hrec) in Hc.
      discriminate. }
    rewrite (get_data_with_retry_miss _ _ _ _ _ Hc).
    unfold get_data_with_retry_body.
    pose proof (attempts_lru s a b (default default_max_retries mr)
                  (Z.to_nat (default default_max_retries mr)) 0 w) as Hl.
    destruct (attempts _ _ _ _ _ _ w) as [[v'|e] w']; simpl in *; rewrite Hl.
    + apply recent_put; [exact (HS Hne) | exact Hsize | exact Hc | exact Hrec].
    + exact Hrec.
Qed.

Lemma recent_calls S ks :
  ∀ w, (∀ k', k' ∈ ks -> k' ≠ k -> k' ∈ S) -> (size S < maxsize)%nat ->
       recent k v S (lru w) -> recent k v S (lru (calls ks w)).
Proof.
  induction ks as [|k' ks IH]; intros w HS Hsize Hrec; [exact Hrec|].
  simpl. apply IH; [|exact Hsize|].
  - intros k'' Hin. apply HS. apply elem_of_cons. right. exact Hin.
  - apply recent_call; [|exact Hsize|exact Hrec].
    apply HS. apply elem_of_cons. left. reflexivity.
Qed.

End Recent.

(** ** Claims on the cache *)

Section CacheClaims.
Context {E : Env}.

(** No call makes the cache hold a key twice. *)
Lemma call_NoDup k w :
  NoDup (cache_keys (lru w)) -> NoDup (cache_keys (lru (snd (call k w)))).
Proof.
  intros Hnd. destruct k as [[[s a] b] mr]. unfold call.
  destruct (cache_get (s, a, b, mr) (lru w)) as [v'|] eqn:Hc.
  - rewrite (get_data_with_retry_hit _ _ _ _ _ _ Hc). simpl.
    unfold cache_touch, cache_keys. simpl. apply NoDup_cons. split.
    + apply cache_get_None_keys, cache_get_del.
    + eapply sublist_NoDup; [exact Hnd | apply cache_keys_del].
  - rewrite (get_data_with_retry_miss _ _ _ _ _ Hc).
    unfold get_data_with_retry_body.
    pose proof (attempts_lru s a b (default default_max_retries mr)
                  (Z.to_nat (default default_max_retries mr)) 0 w) as Hl.
    destruct (attempts _ _ _ _ _ _ w) as [[v'|e] w']; simpl in *; rewrite Hl;
      [|exact Hnd].
    unfold cache_put. rewrite Hc.
    destruct (maxsize <=? length (lru w))%nat; unfold cache_keys; simpl;
      apply NoDup_cons; split.
    + apply cache_get_None_keys, cache_get_removelast, Hc.
    + eapply sublist_NoDup; [exact Hnd | apply cache_keys_removelast].
    + apply cache_get_None_keys, Hc.
    + exact Hnd.
Qed.

(** C2, amended.  The cache finds an entry by its whole key and has no
    time limit, but it holds [maxsize = 32] entries and gives up the one
    used least recently.  So a value [v] that a call for [k] returned is
    still served, out of the cache and without any event, after any run
    of further calls [ks] (returning or raising, for [k] or for others)
    among which there are fewer than 32 keys other than [k]. *)
Theorem lru_cache_keeps_recent (k : Key) (v : Value) (ks : list Key)
    (w0 w : World) :
  NoDup (cache_keys (lru w0)) ->
  call k w0 = (Ok v, w) ->
  (size (others k ks) < maxsize)%nat ->
  cache_get k (lru (calls ks w)) = Some v
  ∧ fst (call k (calls ks w)) = Ok v
  ∧ trace (snd (call k (calls ks w))) = trace (calls ks w).
Proof.
  intros Hnd Hcall Hsize.
  assert (Hrec : recent k v (others k ks) (lru w)).
  { split.
    - pose proof (call_NoDup k w0 Hnd) as H. rewrite Hcall in H. exact H.
    - destruct k as [[[s a] b] mr]. unfold call in Hcall.
      destruct (get_data_with_retry_cached _ _ _ _ _ _ _ Hcall) as (c & Hl & _).
      exists [], c. split; [exact Hl|].
      intros k' Hk'. apply elem_of_nil in Hk'. contradiction. }
  assert (Hget : cache_get k (lru (calls ks w)) = Some v).
  { apply (recent_get k v (others k ks)).
    apply recent_calls; [|exact Hsize|exact Hrec].
    intros k' Hin Hne. unfold others. apply elem_of_list_to_set.
    apply list_elem_of_filter. split; [exact Hne | exact Hin]. }
  split; [exact Hget|].
  destruct k as [[[s a] b] mr]. unfold call.
  rewrite (get_data_with_retry_hit _ _ _ _ _ _ Hget). split; reflexivity.
Qed.

End CacheClaims.

(** After thirty-one other sectors the first is still served from the
    cache. *)
Lemma lru_cache_keeps_recent_witness :
  let w := calls (H := provider 0 sample_table [])
             (sector_key <$> seq 1 31)
             (snd (call (H := provider 0 sample_table []) (sector_key 0) fresh)) in
  cache_get (sector_key 0) (lru w) = Some (Some sample_table)
  ∧ fst (call (H := provider 0 sample_table []) (sector_key 0) w)
    = Ok (Some sample_table)
  ∧ trace (snd (call (H := provider 0 sample_table []) (sector_key 0) w))
    = trace w.
Proof.
  apply (@lru_cache_keeps_recent (provider 0 sample_table []) (sector_key 0)
           (Some sample_table) (sector_key <$> seq 1 31) fresh).
  - apply NoDup_nil_2.
  - reflexivity.
  - vm_compute. lia.
Defined.

(** C2 as worded fails: the thirty-second other sector pushes the first
    out of the cache. *)
Lemma never_evicted_fails :
  ¬ never_evicted (H := provider 0 sample_table [])
      (sector_key 0) (sector_key <$> seq 1 32)
      (snd (call (H := provider 0 sample_table []) (sector_key 0) fresh)).
Proof.
  intros H. specialize (H (Some sample_table) eq_refl).
  vm_compute in H. discriminate.
Qed.

(** ** The aggregation pass *)

Lemma warnings_of_app t1 t2 :
  warnings_of (t1 ++ t2) = (warnings_of t1 ++ warnings_of t2)%list.
Proof.
  induction t1 as [|ev t1 IH]; [reflexivity|].
  destruct ev; simpl; rewrite ?IH; reflexivity.
Qed.

Section Aggregation.
Context {E : Env}.

(** The fetch adds no warning to the trace. *)
Lemma fetch_warnings name w :
  warnings_of (trace (snd (fetch name w))) = warnings_of (trace w).
Proof.
  unfold fetch, bind, now. simpl.
  match goal with
  | |- context [get_data_with_retry ?s ?a ?b ?mr ?w0] =>
      destruct (get_data_with_retry_trace s a b mr w0) as (evs & Ht & _ & Hw)
  end.
  rewrite Ht. simpl. rewrite !warnings_of_app, Hw. simpl.
  rewrite !app_nil_r. reflexivity.
Qed.

(** What the statements under [try:] come to, by what the fetch gave. *)
Lemma latest_of_fetch name w :
  latest_of name w =
    match fetch name w with
    | (Ok (Some df), w') =>
        match last (rows df) with
        | Some r => (Ok (<["板块名称" := CStr name]> (to_dict df r)), w')
        | None => (Raise IndexError_iloc, w')
        end
    | (Ok None, w') => (Raise AttributeError_iloc, w')
    | (Raise e, w') => (Raise e, w')
    end.
Proof.
  unfold latest_of, bind. destruct (fetch name w) as [[[df|]|e] w']; simpl;
    [|reflexivity|reflexivity].
  destruct (last (rows df)); reflexivity.
Qed.

Lemma last_None_empty df : last (rows df) = None <-> empty df = true.
Proof.
  unfold empty. destruct (rows df) as [|r rs]; [split; reflexivity|].
  split; [|discriminate]. intros H. apply last_None in H. discriminate.
Qed.

Lemma no_record_latest_of name w :
  no_record (name, w) = negb (is_ok (fst (latest_of name w))).
Proof.
  unfold no_record. rewrite latest_of_fetch. simpl.
  destruct (fetch name w) as [[[df|]|e] w']; simpl; try reflexivity.
  destruct (last (rows df)) eqn:Hl; simpl.
  - destruct (empty df) eqn:He; [|reflexivity].
    apply last_None_empty in He. congruence.
  - apply last_None_empty. exact Hl.
Qed.

(** A record that was captured carries the name of its sector. *)
Lemma latest_of_tag name w r w' :
  latest_of name w = (Ok r, w') -> r !! "板块名称" = Some (CStr name).
Proof.
  rewrite latest_of_fetch. destruct (fetch name w) as [[[df|]|e] w1];
    [|discriminate|discriminate].
  destruct (last (rows df)); [|discriminate].
  intros [= <- _]. apply lookup_insert_eq.
Qed.

(** One turn of the loop never raises: it appends a record, or it warns
    and leaves the list as it is. *)
Lemma board_iteration_cases name data_list w :
  board_iteration name data_list w =
    match latest_of name w with
    | (Ok r, w') => (Ok (data_list ++ [r])%list, w')
    | (Raise e, w') =>
        (Ok data_list, log (EvWarning (failure_text name e)) w')
    end.
Proof.
  unfold board_iteration, try_except, bind, ret, emit.
  destruct (latest_of name w) as [[r|e] w']; reflexivity.
Qed.

Lemma board_iteration_world name data_list w :
  snd (board_iteration name data_list w) = snd (board_iteration name [] w).
Proof.
  rewrite !board_iteration_cases.
  destruct (latest_of name w) as [[r|e] w']; reflexivity.
Qed.

Lemma latest_of_warnings name w :
  warnings_of (trace (snd (latest_of name w))) = warnings_of (trace w).
Proof.
  rewrite latest_of_fetch. pose proof (fetch_warnings name w) as H.
  destruct (fetch name w) as [[[df|]|e] w']; simpl in *; try exact H.
  destruct (last (rows df)); exact H.
Qed.

(** The whole loop: the records of the sectors that have one, in order
    and tagged, and one warning for each of the others. *)
Lemma for_each_board_iteration names :
  ∀ data_list w,
  ∃ captured w',
    for_each names board_iteration data_list w = (Ok (data_list ++ captured)%list, w')
    ∧ (length captured + length (List.filter no_record (pass names w))
       = length names)%nat
    ∧ length (warnings_of (trace w'))
      = (length (warnings_of (trace w))
         + length (List.filter no_record (pass names w)))%nat
    ∧ (fun r : Row => r !! "板块名称") <$> captured
      = (fun s => Some (CStr s.1))
          <$> List.filter (fun s => negb (no_record s)) (pass names w).
Proof.
  induction names as [|name names IH]; intros data_list w.
  - exists [], w. simpl. rewrite app_nil_r. unfold ret.
    repeat split; lia.
  - simpl for_each. unfold bind. simpl pass.
    rewrite <- (board_iteration_world name data_list w).
    simpl List.filter. rewrite no_record_latest_of.
    pose proof (latest_of_warnings name w) as Hw.
    rewrite board_iteration_cases.
    destruct (latest_of name w) as [[r|e] w1] eqn:Hl; simpl in *.
    + destruct (IH (data_list ++ [r])%list w1) as (cap & w' & Hrun & Hlen & Hwarn & Htag).
      exists (r :: cap), w'. rewrite Hrun, <- app_assoc. simpl.
      split; [reflexivity|]. split; [lia|]. split; [rewrite Hwarn, Hw; reflexivity|].
      f_equal; [exact (latest_of_tag _ _ _ _ Hl) | exact Htag].
    + destruct (IH data_list (log (EvWarning (failure_text name e)) w1))
        as (cap & w' & Hrun & Hlen & Hwarn & Htag).
      exists cap, w'. rewrite Hrun. split; [reflexivity|]. split; [lia|].
      split; [|exact Htag].
      rewrite Hwarn. simpl. rewrite warnings_of_app, length_app, Hw. simpl. lia.
Qed.

End Aggregation.

(** ** Claims on [get_board_data] *)

Section AggregationClaims.
Context {E : Env}.

(** C5, amended.  For a directory of [N] sectors of which [K] have no
    record to give (the fetch raises after its retries, or it returns a
    table without rows), [get_board_data] returns, and never raises: the
    table has [N - K] rows, the rows are those of the other sectors in
    the order of the directory, each with the name of its sector in
    板块名称, and exactly [K] warnings are added.  With [K = N] the table
    has no row. *)
Theorem get_board_data_rows_and_warnings (w : World) (names : list string) :
  stock_board_industry_name_em (trace w) = Ok names ->
  ∃ df w',
    get_board_data w = (Ok df, w')
    ∧ (length (List.filter no_record (pass names (log EvNames w)))
       <= length names)%nat
    ∧ length (rows df)
      = (length names
         - length (List.filter no_record (pass names (log EvNames w))))%nat
    ∧ length (warnings_of (trace w'))
      = (length (warnings_of (trace w))
         + length (List.filter no_record (pass names (log EvNames w))))%nat
    ∧ (fun r : Row => r !! "板块名称") <$> rows df
      = (fun s => Some (CStr s.1))
          <$> List.filter (fun s => negb (no_record s))
                (pass names (log EvNames w))
    ∧ (length (List.filter no_record (pass names (log EvNames w)))
       = length names -> rows df = []).
Proof.
  intros Hdir. unfold get_board_data, bind, names_em. rewrite Hdir.
  destruct (for_each_board_iteration names [] (log EvNames w))
    as (cap & w' & Hrun & Hlen & Hwarn & Htag).
  rewrite Hrun. simpl in *. unfold ret.
  exists (DataFrame_of_records cap), w'. split; [reflexivity|]. simpl.
  split; [lia|]. split; [lia|]. split.
  - rewrite Hwarn. simpl. rewrite warnings_of_app. simpl.
    rewrite app_nil_r. reflexivity.
  - split; [exact Htag|]. intros HK. destruct cap; [reflexivity|]. simpl in Hlen. lia.
Qed.


End AggregationClaims.

(** Two sectors; the provider is down for the first four calls: the
    first sector is given up, the second is fetched at its second
    attempt. *)
Lemma get_board_data_rows_and_warnings_witness :
  ∃ df w',
    get_board_data (E := provider 4 sample_table ["小金属"; "银行"]) fresh
    = (Ok df, w')
    ∧ (1 <= 2)%nat
    ∧ length (rows df) = 1%nat
    ∧ length (warnings_of (trace w')) = 1%nat
    ∧ (fun r : Row => r !! "板块名称") <$> rows df = [Some (CStr "银行")]
    ∧ (1%nat = 2%nat -> rows df = []).
Proof.
  apply (@get_board_data_rows_and_warnings
           (provider 4 sample_table ["小金属"; "银行"]) fresh ["小金属"; "银行"]).
  reflexivity.
Defined.


(** C5 as worded fails: the fetch of the one sector returns a table
    without rows, so no fetch fails ([K = 0] of [N = 1]), yet the table
    has no row and there is a warning. *)
Lemma rows_but_fetch_failures_fails :
  ¬ rows_but_fetch_failures (H := provider 0 no_rows_table ["小金属"]) fresh.
Proof.
  intros H. destruct (H ["小金属"] _ eq_refl) as (df & w' & Hrun & Hrows & _).
  apply (f_equal (fun x => match fst x with
                           | Ok d => length (rows d)
                           | Raise _ => 7%nat
                           end)) in Hrun.
  vm_compute in Hrun. vm_compute in Hrows. congruence.
Qed.

(** ** The transform *)

Lemma cell_insert (r : Row) c c' x :
  cell (<[c := x]> r) c' = if decide (c = c') then x else cell r c'.
Proof.
  unfold cell. rewrite lookup_insert. destruct (decide (c = c')); reflexivity.
Qed.

Ltac cells :=
  repeat (rewrite cell_insert;
          match goal with
          | |- context [decide (?a = ?b)] =>
              destruct (decide (a = b)) as [?Heq|?Hne];
              [try discriminate | try (exfalso; congruence)]
          end).

Section Transform.
Context {E : Env}.

(** A coerced column holds numbers; the other columns are as they were. *)
Lemma cell_coerce_row cols :
  ∀ r c, cell (coerce_row cols r) c
         = if decide (c ∈ cols) then CNum (to_numeric (cell r c)) else cell r c.
Proof.
  unfold coerce_row. induction cols as [|c0 cols IH]; intros r c; simpl.
  - destruct (decide (c ∈ [])) as [Hin|_]; [|reflexivity].
    apply elem_of_nil in Hin. contradiction.
  - rewrite IH, cell_insert.
    destruct (decide (c0 = c)) as [->|Hne].
    + destruct (decide (c ∈ cols)); destruct (decide (c ∈ c :: cols)) as [|Hn];
        try reflexivity; exfalso; apply Hn; apply elem_of_cons; left; reflexivity.
    + destruct (decide (c ∈ cols)) as [Hin|Hnin];
        destruct (decide (c ∈ c0 :: cols)) as [Hin'|Hnin']; try reflexivity.
      * exfalso. apply Hnin'. apply elem_of_cons. right. exact Hin.
      * exfalso. apply elem_of_cons in Hin' as [->|Hin']; contradiction.
Qed.

Lemma num_coerce_row r c :
  c ∈ numeric_cols -> num (coerce_row numeric_cols r) c = to_numeric (cell r c).
Proof.
  intros Hin. unfold num. rewrite cell_coerce_row.
  destruct (decide (c ∈ numeric_cols)); [reflexivity | contradiction].
Qed.

Lemma rows_assign c f df :
  rows (assign c f df) = (fun r => <[c := CNum (f r)]> r) <$> rows df.
Proof. reflexivity. Qed.

Lemma rows_select mask df : rows (select mask df) = List.filter mask (rows df).
Proof. reflexivity. Qed.

Lemma filter_filter_valid (l : list Row) :
  List.filter (fun r => PrimFloat.ltb 0%float (num r "成交量"))
    (List.filter (fun r => negb (isna (cell r "涨跌幅"))) l)
  = List.filter valid l.
Proof.
  induction l as [|r l IH]; [reflexivity|].
  unfold valid in *. simpl.
  destruct (isna (cell r "涨跌幅")); simpl; [exact IH|].
  destruct (PrimFloat.ltb 0 (num r "成交量")); simpl; [f_equal|]; exact IH.
Qed.

(** [process_data], when its columns are there, derives every record
    and keeps the valid ones. *)
Lemma process_data_rows df out :
  process_data df = Ok out ->
  rows out = List.filter valid (derive <$> rows df).
Proof.
  unfold process_data. destruct (has_columns numeric_cols df); [|discriminate].
  intros [= <-]. unfold dropna.
  rewrite !rows_select, !rows_assign, <- !list_fmap_compose.
  apply filter_filter_valid.
Qed.

(** It raises only for want of a column. *)
Lemma process_data_returns df :
  has_columns numeric_cols df = true -> is_ok (process_data df) = true.
Proof. intros H. unfold process_data. rewrite H. reflexivity. Qed.

End Transform.

(** ** Claims on [process_data] *)

Section TransformClaims.
Context {E : Env}.

Lemma numeric_col_pct : "涨跌幅" ∈ numeric_cols.
Proof. apply list_elem_of_In. simpl. tauto. Qed.
Lemma numeric_col_turnover : "换手率" ∈ numeric_cols.
Proof. apply list_elem_of_In. simpl. tauto. Qed.
Lemma numeric_col_amount : "成交额" ∈ numeric_cols.
Proof. apply list_elem_of_In. simpl. tauto. Qed.
Lemma numeric_col_volume : "成交量" ∈ numeric_cols.
Proof. apply list_elem_of_In. simpl. tauto. Qed.

(** The derived columns of a record, by the numbers it came with. *)
Lemma derive_intensity r :
  cell (derive r) "量价强度"
  = CNum (PrimFloat.mul (to_numeric (cell r "涨跌幅")) (to_numeric (cell r "换手率"))).
Proof.
  unfold derive. cells.
  rewrite !num_coerce_row by (apply numeric_col_pct || apply numeric_col_turnover).
  reflexivity.
Qed.

Lemma derive_pct r :
  cell (derive r) "涨跌幅"
  = CNum (PrimFloat.mul (to_numeric (cell r "涨跌幅")) 100%float).
Proof.
  unfold derive. cells. unfold num at 1. cells.
  fold (num (coerce_row numeric_cols r) "涨跌幅").
  rewrite num_coerce_row by apply numeric_col_pct. reflexivity.
Qed.

Lemma derive_amount r :
  cell (derive r) "成交额（亿）"
  = CNum (PrimFloat.div (to_numeric (cell r "成交额")) 1e8%float).
Proof.
  unfold derive. cells. unfold num at 1. cells.
  fold (num (coerce_row numeric_cols r) "成交额").
  rewrite num_coerce_row by apply numeric_col_amount. reflexivity.
Qed.

Lemma derive_volume r :
  num (derive r) "成交量" = to_numeric (cell r "成交量").
Proof.
  unfold derive, num at 1. cells.
  fold (num (coerce_row numeric_cols r) "成交量").
  apply num_coerce_row, numeric_col_volume.
Qed.

Lemma valid_derive r :
  valid (derive r)
  = negb (is_nan (PrimFloat.mul (to_numeric (cell r "涨跌幅")) 100%float))
    && PrimFloat.ltb 0%float (to_numeric (cell r "成交量")).
Proof. unfold valid. rewrite derive_pct, derive_volume. reflexivity. Qed.

Lemma derive_in_rows df out r :
  process_data df = Ok out -> r ∈ rows df -> valid (derive r) = true ->
  derive r ∈ rows out.
Proof.
  intros Hout Hin Hvalid. rewrite (process_data_rows _ _ Hout).
  apply list_elem_of_In, filter_In. split; [|exact Hvalid].
  apply list_elem_of_In, list_elem_of_fmap. exists r. split; [reflexivity|exact Hin].
Qed.

End TransformClaims.

Section TransformTheorems.
Context {E : Env}.

(** C6.  For a record of the table given to [process_data] whose 涨跌幅
    reads 2.5 and whose 换手率 reads 3.0, the derived record has 量价强度
    7.5 and 涨跌幅 250.0 (the number it came with, times 100); one whose
    成交额 reads 2.5e8 has 2.5 in 成交额（亿）; and the derived record is a
    row of the result when the volume is above zero.  The result is a
    function of the table (and of how strings read as numbers): its rows
    are the derived records that are valid, in order. *)
Theorem process_data_derived_columns (df out : DataFrame) (r : Row) :
  process_data df = Ok out ->
  r ∈ rows df ->
  (to_numeric (cell r "涨跌幅") = 2.5%float ->
   to_numeric (cell r "换手率") = 3%float ->
   cell (derive r) "量价强度" = CNum 7.5%float
   ∧ cell (derive r) "涨跌幅" = CNum 250%float)
  ∧ (to_numeric (cell r "成交额") = 2.5e8%float ->
     cell (derive r) "成交额（亿）" = CNum 2.5%float)
  ∧ (to_numeric (cell r "涨跌幅") = 2.5%float ->
     PrimFloat.ltb 0%float (to_numeric (cell r "成交量")) = true ->
     derive r ∈ rows out)
  ∧ rows out = List.filter valid (derive <$> rows df).
Proof.
  intros Hout Hin. split; [|split; [|split]].
  - intros Hpct Hturn. rewrite derive_intensity, derive_pct, Hpct, Hturn.
    split; reflexivity.
  - intros Hamount. rewrite derive_amount, Hamount. reflexivity.
  - intros Hpct Hvol. apply (derive_in_rows df out r Hout Hin).
    rewrite valid_derive, Hpct, Hvol. reflexivity.
  - apply process_data_rows, Hout.
Qed.

(** C10.  Every row of the table that [process_data] returns has a
    volume above zero and a 涨跌幅 that is a number; the record derived
    from one whose 涨跌幅 does not read as a number (it reads as NaN), or
    whose volume is not above zero, is not among the rows. *)
Theorem process_data_rows_clean (df out : DataFrame) :
  process_data df = Ok out ->
  Forall (fun r => PrimFloat.ltb 0%float (num r "成交量") = true
                   ∧ isna (cell r "涨跌幅") = false) (rows out)
  ∧ (∀ r, to_numeric (cell r "涨跌幅") = nan -> derive r ∉ rows out)
  ∧ (∀ r, PrimFloat.ltb 0%float (to_numeric (cell r "成交量")) = false ->
          derive r ∉ rows out).
Proof.
  intros Hout. rewrite (process_data_rows _ _ Hout).
  assert (Hvalid : ∀ r', r' ∈ List.filter valid (derive <$> rows df) ->
                         valid r' = true).
  { intros r' Hin. apply list_elem_of_In, filter_In in Hin. apply Hin. }
  split; [|split].
  - apply Forall_forall. intros r' Hin. apply Hvalid in Hin.
    unfold valid in Hin. apply andb_prop in Hin as [Hna Hvol].
    split; [exact Hvol|]. destruct (isna (cell r' "涨跌幅")); [discriminate|reflexivity].
  - intros r Hnan Hin. apply Hvalid in Hin.
    rewrite valid_derive, Hnan in Hin. discriminate.
  - intros r Hvol Hin. apply Hvalid in Hin.
    rewrite valid_derive, Hvol, andb_false_r in Hin. discriminate.
Qed.

End TransformTheorems.

(** The sample record: 2.5 and 3.0 give 7.5 and 250.0; 2.5e8 gives 2.5. *)
Lemma process_data_derived_columns_witness :
  (cell (derive (H := provider 0 sample_table []) sample_row) "量价强度"
   = CNum 7.5%float
   ∧ cell (derive (H := provider 0 sample_table []) sample_row) "涨跌幅"
     = CNum 250%float)
  ∧ cell (derive (H := provider 0 sample_table []) sample_row) "成交额（亿）"
    = CNum 2.5%float
  ∧ derive (H := provider 0 sample_table []) sample_row
    ∈ rows (processed mixed_table).
Proof.
  destruct (@process_data_derived_columns (provider 0 sample_table [])
              mixed_table (processed mixed_table) sample_row)
    as (H1 & H2 & H3 & _).
  - reflexivity.
  - apply list_elem_of_In. simpl. tauto.
  - split; [apply H1; reflexivity|]. split; [apply H2; reflexivity|].
    apply H3; reflexivity.
Defined.

(** Of the three sample records only the one in the middle is kept. *)
Lemma process_data_rows_clean_witness :
  Forall (fun r => PrimFloat.ltb 0%float (num r "成交量") = true
                   ∧ isna (cell r "涨跌幅") = false)
    (rows (processed mixed_table))
  ∧ (derive (H := provider 0 sample_table []) unparsed_row
     ∉ rows (processed mixed_table))
  ∧ (derive (H := provider 0 sample_table []) halted_row
     ∉ rows (processed mixed_table)).
Proof.
  destruct (@process_data_rows_clean (provider 0 sample_table [])
              mixed_table (processed mixed_table) eq_refl)
    as (H1 & H2 & H3).
  split; [exact H1|]. split; [apply H2 | apply H3]; reflexivity.
Defined.

(** ** The data path of [main] *)





Section MainPath.
Context {E : Env}.








(** The loop over the directory never raises. *)
Lemma for_each_board_iteration_ok names data_list w :
  is_ok (fst (for_each names board_iteration data_list w)) = true.
Proof.
  destruct (for_each_board_iteration names data_list w) as (cap & w' & H & _).
  rewrite H. reflexivity.
Qed.


(** When no sector has a record the aggregated table has no column, and
    the transform raises before the filter is reached: the advisory of
    [main] is for tables that lost their rows to the cleaning or to the
    date filter. *)
Lemma process_data_without_records :
  process_data (DataFrame_of_records []) = Raise (KeyError "numeric_cols").
Proof. reflexivity. Qed.

End MainPath.


(** * Further properties of the script *)

(** ** [get_data_with_retry]: every run of the loop *)

Lemma total_sleep_app t1 t2 :
  total_sleep (t1 ++ t2) = total_sleep t1 + total_sleep t2.
Proof.
  unfold total_sleep. induction t1 as [|ev t1 IH]; [reflexivity|].
  destruct ev; simpl; rewrite ?IH; lia.
Qed.

Lemma hist_calls_app t1 t2 :
  hist_calls (t1 ++ t2) = (hist_calls t1 + hist_calls t2)%nat.
Proof. unfold hist_calls. rewrite List.filter_app, length_app. reflexivity. Qed.

Section Schedule.
Context {E : Env}.
Variables (symbol start_date end_date : string).

Local Abbreviation hist t := (stock_board_industry_hist_em t symbol start_date end_date).
Local Abbreviation loop := (attempts symbol start_date end_date).
Local Abbreviation failed := (failed_attempts symbol start_date end_date).
Local Abbreviation Hist := (EvHist symbol start_date end_date).

(** The sleep of [j] failed attempts from index [attempt] on. *)
Lemma total_sleep_failed_attempts (j : nat) :
  ∀ attempt tail, 0 <= attempt ->
    total_sleep (failed j attempt ++ tail)
    = 2 ^ (attempt + Z.of_nat j) - 2 ^ attempt + total_sleep tail.
Proof.
  induction j as [|j IH]; intros a tail Ha.
  - simpl. rewrite Z.add_0_r. lia.
  - change (failed (S j) a ++ tail)%list
      with (Hist :: EvSleep (2 ^ a) :: (failed j (a + 1) ++ tail))%list.
    change (total_sleep (Hist :: EvSleep (2 ^ a) :: (failed j (a + 1) ++ tail))%list)
      with (2 ^ a + total_sleep (failed j (a + 1) ++ tail)).
    rewrite IH by lia.
    replace (a + 1 + Z.of_nat j) with (a + Z.of_nat (S j)) by lia.
    rewrite (Z.pow_add_r 2 a 1) by lia. lia.
Qed.

(** Every run of the loop is some failed attempts, each with its wait,
    and one more call. *)
Lemma attempts_shape max_retries remaining :
  ∀ attempt w,
    (0 < remaining)%nat ->
    attempt + Z.of_nat remaining = max_retries ->
    ∃ j, (j < remaining)%nat
         ∧ snd (loop max_retries remaining attempt w)
           = {| trace := (trace w ++ failed j attempt ++ [Hist])%list;
                lru := lru w |}.
Proof.
  induction remaining as [|r IH]; intros a w Hr Hn; [lia|].
  rewrite attempts_S. destruct (hist (trace w)).
  - exists 0%nat. split; [lia | reflexivity].
  - destruct (Z.eqb_spec a (max_retries - 1)).
    + exists 0%nat. split; [lia | reflexivity].
    + destruct (IH (a + 1) (log (EvSleep (2 ^ a)) (log Hist w)))
        as (j & Hj & Hw); [lia | lia |].
      exists (S j). split; [lia|]. rewrite Hw. simpl.
      rewrite <- !app_assoc. reflexivity.
Qed.

(** A run that raises has used every attempt. *)
Lemma attempts_raise max_retries remaining :
  ∀ attempt w e w',
    attempt + Z.of_nat remaining = max_retries ->
    loop max_retries remaining attempt w = (Raise e, w') ->
    (0 < remaining)%nat
    ∧ w' = {| trace := (trace w ++ failed (remaining - 1) attempt ++ [Hist])%list;
              lru := lru w |}
    ∧ hist (trace w ++ failed (remaining - 1) attempt)%list = Raise e.
Proof.
  induction remaining as [|r IH]; intros a w e w' Hn; [discriminate|].
  rewrite attempts_S. destruct (hist (trace w)) as [df|e0] eqn:Hh; [discriminate|].
  destruct (Z.eqb_spec a (max_retries - 1)).
  - intros [= <- <-]. assert (r = 0%nat) as -> by lia.
    split; [lia|]. split; [reflexivity|]. simpl. rewrite app_nil_r. exact Hh.
  - intros Hrun. apply IH in Hrun as (Hr & Hw & Hlast); [|lia].
    split; [lia|]. destruct r as [|r]; [lia|].
    replace (S (S r) - 1)%nat with (S r) by lia.
    replace (S r - 1)%nat with r in Hw, Hlast by lia.
    simpl in *. rewrite <- !app_assoc in Hw, Hlast. simpl in Hw, Hlast.
    split; [exact Hw | exact Hlast].
Qed.

End Schedule.

Section AcquisitionExtras.
Context {E : Env}.
Variables (symbol start_date end_date : string) (max_retries : option Z).

Local Abbreviation key := (symbol, start_date, end_date, max_retries).
Local Abbreviation n := (default default_max_retries max_retries).
Local Abbreviation get := (get_data_with_retry symbol start_date end_date max_retries).
Local Abbreviation hist t := (stock_board_industry_hist_em t symbol start_date end_date).
Local Abbreviation failed := (failed_attempts symbol start_date end_date).
Local Abbreviation Hist := (EvHist symbol start_date end_date).

(** X1.  A call that misses the cache returns [None] exactly when
    [max_retries] is zero or less: then the loop has no turn, the
    provider is not called, and [None] is what is stored for the key;
    with one attempt or more the call returns a table or raises. *)
Theorem get_data_with_retry_none (w : World) :
  cache_get key (lru w) = None ->
  (fst (get w) = Ok None <-> n <= 0)
  ∧ (n <= 0 -> get w = (Ok None, set_lru (cache_put key None (lru w)) w)).
Proof.
  intros Hc. rewrite (get_data_with_retry_miss _ _ _ _ _ Hc).
  unfold get_data_with_retry_body.
  assert (Hzero : n <= 0 ->
            attempts symbol start_date end_date n (Z.to_nat n) 0 w = (Ok None, w)).
  { intros Hn. replace (Z.to_nat n) with 0%nat by lia. reflexivity. }
  split; [split|].
  - intros Hnone. destruct (Z_le_gt_dec n 0) as [|Hpos]; [assumption|].
    exfalso.
    apply (attempts_never_none symbol start_date end_date n (Z.to_nat n) 0 w);
      [lia | lia |].
    destruct (attempts _ _ _ _ _ _ w) as [[v|e] w']; simpl in *;
      [congruence | discriminate].
  - intros Hn. rewrite (Hzero Hn). reflexivity.
  - intros Hn. rewrite (Hzero Hn). reflexivity.
Qed.

(** X2.  A call that raises has made all its attempts: the key was not
    cached, the provider was called [max_retries] times with the waits
    of the schedule in between, the exception is the one of the last
    call, and the cache is as it was, so that the key is still not
    cached. *)
Theorem get_data_with_retry_raise (w w' : World) (e : Exception) :
  get w = (Raise e, w') ->
  1 <= n
  ∧ cache_get key (lru w) = None
  ∧ trace w' = (trace w ++ failed (Z.to_nat n - 1) 0 ++ [Hist])%list
  ∧ hist (trace w ++ failed (Z.to_nat n - 1) 0)%list = Raise e
  ∧ lru w' = lru w
  ∧ cache_get key (lru w') = None.
Proof.
  intros Hrun. destruct (cache_get key (lru w)) as [v|] eqn:Hc.
  { rewrite (get_data_with_retry_hit _ _ _ _ _ _ Hc) in Hrun. discriminate. }
  rewrite (get_data_with_retry_miss _ _ _ _ _ Hc) in Hrun.
  unfold get_data_with_retry_body in Hrun.
  destruct (attempts symbol start_date end_date n (Z.to_nat n) 0 w)
    as [[v|e'] w1] eqn:Hloop; [discriminate|].
  injection Hrun as <- <-.
  assert (Hn : 0 <= n).
  { destruct (Z_le_gt_dec 0 n) as [|Hneg]; [assumption|].
    replace (Z.to_nat n) with 0%nat in Hloop by lia. discriminate. }
  apply attempts_raise in Hloop as (Hpos & -> & Hlast); [|lia].
  split; [lia|]. split; [reflexivity|]. split; [reflexivity|].
  split; [exact Hlast|]. split; [reflexivity | exact Hc].
Qed.

(** X4.  Whatever the provider does, a call with [max_retries] of one
    or more adds to the trace either nothing (a hit) or [j] failed
    attempts and one more call, for some [j < max_retries]: its waits
    are [1, 2, ..., 2^(j-1)] seconds, [2^j - 1] seconds in all and never
    more than [2^(max_retries - 1) - 1], and it calls the provider
    [max_retries] times at most. *)
Theorem get_data_with_retry_schedule (w : World) :
  1 <= n ->
  ∃ (j : nat) evs,
    trace (snd (get w)) = (trace w ++ evs)%list
    ∧ (evs = [] ∨ evs = (failed j 0 ++ [Hist])%list)
    ∧ Z.of_nat j < n
    ∧ sleeps_of evs = (fun i => 2 ^ Z.of_nat i) <$> seq 0 (length (sleeps_of evs))
    ∧ total_sleep evs <= 2 ^ Z.of_nat j - 1
    ∧ 2 ^ Z.of_nat j - 1 <= 2 ^ (n - 1) - 1
    ∧ (hist_calls evs <= Z.to_nat n)%nat.
Proof.
  intros Hn. destruct (cache_get key (lru w)) as [v|] eqn:Hc.
  - rewrite (get_data_with_retry_hit _ _ _ _ _ _ Hc). exists 0%nat, [].
    simpl. rewrite app_nil_r. split; [reflexivity|]. split; [left; reflexivity|].
    split; [lia|]. split; [reflexivity|]. split; [reflexivity|].
    split; [|unfold hist_calls; simpl; lia].
    assert (1 <= 2 ^ (n - 1)) by (apply Z.pow_le_mono_r with (b := 0); lia). lia.
  - rewrite (get_data_with_retry_miss _ _ _ _ _ Hc).
    unfold get_data_with_retry_body.
    destruct (attempts_shape symbol start_date end_date n (Z.to_nat n) 0 w)
      as (j & Hj & Hw); [lia | lia |].
    exists j, (failed j 0 ++ [Hist])%list.
    assert (Htrace : trace (snd (attempts symbol start_date end_date n
                                   (Z.to_nat n) 0 w))
                     = (trace w ++ failed j 0 ++ [Hist])%list)
      by (rewrite Hw; reflexivity).
    split.
    { destruct (attempts _ _ _ _ _ _ w) as [[v|e] w1]; exact Htrace. }
    split; [right; reflexivity|]. split; [lia|].
    assert (Hs : sleeps_of (failed j 0 ++ [Hist])
                 = (fun i => 2 ^ Z.of_nat i) <$> seq 0 j).
    { rewrite sleeps_of_failed_attempts. simpl. rewrite app_nil_r.
      apply list_fmap_ext. intros _ i _. reflexivity. }
    split; [rewrite Hs, length_fmap, length_seq; reflexivity|].
    split.
    { rewrite total_sleep_failed_attempts by lia.
      change (total_sleep [Hist]) with 0. rewrite Z.add_0_l.
      change (2 ^ 0) with 1. lia. }
    split.
    + assert (2 ^ Z.of_nat j <= 2 ^ (n - 1))
        by (apply Z.pow_le_mono_r; lia). lia.
    + rewrite hist_calls_failed_attempts. unfold hist_calls. simpl. lia.
Qed.

End AcquisitionExtras.

(** ** The cache: what every call keeps *)

Lemma cache_del_shorter k v c :
  cache_get k c = Some v -> (length (cache_del k c) < length c)%nat.
Proof.
  unfold cache_del. induction c as [|[k' v'] c IH]; simpl; [discriminate|].
  destruct (decide (k' = k)) as [->|Hne]; intros H.
  - rewrite filter_cons_False by (simpl; tauto).
    pose proof (length_filter (fun e : Key * Value => e.1 ≠ k) c). lia.
  - rewrite filter_cons_True by exact Hne. simpl. apply IH in H. lia.
Qed.

Lemma cache_put_length k v c :
  (length c <= maxsize)%nat -> (length (cache_put k v c) <= maxsize)%nat.
Proof.
  intros Hlen. unfold cache_put. destruct (cache_get k c); [exact Hlen|].
  destruct (Nat.leb_spec maxsize (length c)) as [Hfull|Hroom]; simpl; [|lia].
  rewrite removelast_firstn_len, length_take. unfold maxsize in *. lia.
Qed.

Section CacheExtras.
Context {E : Env}.

Lemma call_length k w :
  (length (lru w) <= maxsize)%nat ->
  (length (lru (snd (call k w))) <= maxsize)%nat.
Proof.
  intros Hlen. destruct k as [[[s a] b] mr]. unfold call.
  destruct (cache_get (s, a, b, mr) (lru w)) as [v'|] eqn:Hc.
  - rewrite (get_data_with_retry_hit _ _ _ _ _ _ Hc). simpl.
    pose proof (cache_del_shorter _ _ _ Hc). lia.
  - rewrite (get_data_with_retry_miss _ _ _ _ _ Hc).
    unfold get_data_with_retry_body.
    pose proof (attempts_lru s a b (default default_max_retries mr)
                  (Z.to_nat (default default_max_retries mr)) 0 w) as Hl.
    destruct (attempts _ _ _ _ _ _ w) as [[v'|e] w']; simpl in *; rewrite Hl;
      [apply cache_put_length|]; exact Hlen.
Qed.

(** X3.  No run of calls, whatever their keys and whatever the provider
    answers, makes the cache hold more than [maxsize = 32] entries or
    hold a key twice. *)
Theorem calls_cache_bounded (ks : list Key) :
  ∀ w,
    NoDup (cache_keys (lru w)) ->
    (length (lru w) <= maxsize)%nat ->
    NoDup (cache_keys (lru (calls ks w)))
    ∧ (length (lru (calls ks w)) <= maxsize)%nat.
Proof.
  induction ks as [|k ks IH]; intros w Hnd Hlen; [split; assumption|].
  simpl. apply IH; [apply call_NoDup, Hnd | apply call_length, Hlen].
Qed.

End CacheExtras.

(** Forty sectors on a provider that answers: thirty-two entries. *)
Lemma calls_cache_bounded_witness :
  NoDup (cache_keys (lru (calls (H := provider 0 sample_table [])
                            (sector_key <$> seq 0 40) fresh)))
  ∧ (length (lru (calls (H := provider 0 sample_table [])
                    (sector_key <$> seq 0 40) fresh)) <= maxsize)%nat.
Proof.
  apply (@calls_cache_bounded (provider 0 sample_table [])
           (sector_key <$> seq 0 40) fresh).
  - apply NoDup_nil_2.
  - vm_compute. lia.
Defined.

(** [get_data_with_retry("小金属", "20231107", "20231114", 0)] *)
Lemma get_data_with_retry_none_witness :
  (fst (get_data_with_retry (E := provider 0 sample_table [])
          "小金属" "20231107" "20231114" (Some 0) fresh) = Ok None <-> 0 <= 0)
  ∧ (0 <= 0 ->
     get_data_with_retry (E := provider 0 sample_table [])
       "小金属" "20231107" "20231114" (Some 0) fresh
     = (Ok None,
        set_lru (cache_put ("小金属", "20231107", "20231114", Some 0) None []) fresh)).
Proof.
  apply (@get_data_with_retry_none (provider 0 sample_table [])
           "小金属" "20231107" "20231114" (Some 0) fresh).
  reflexivity.
Defined.

(** The provider is down for three calls. *)
Lemma get_data_with_retry_raise_witness :
  let w' := snd (get_data_with_retry (E := provider 3 sample_table [])
                   "小金属" "20231107" "20231114" None fresh) in
  1 <= 3
  ∧ cache_get ("小金属", "20231107", "20231114", None) (lru fresh) = None
  ∧ trace w' = [EvHist "小金属" "20231107" "20231114"; EvSleep 1;
                EvHist "小金属" "20231107" "20231114"; EvSleep 2;
                EvHist "小金属" "20231107" "20231114"]
  ∧ @stock_board_industry_hist_em (provider 3 sample_table [])
      (trace fresh ++ failed_attempts "小金属" "20231107" "20231114" 2 0)%list
      "小金属" "20231107" "20231114" = Raise ConnectionError
  ∧ lru w' = lru fresh
  ∧ cache_get ("小金属", "20231107", "20231114", None) (lru w') = None.
Proof.
  apply (@get_data_with_retry_raise (provider 3 sample_table [])
           "小金属" "20231107" "20231114" None fresh _ ConnectionError).
  reflexivity.
Defined.

(** One failure, then the answer: a second of sleep, three at most. *)
Lemma get_data_with_retry_schedule_witness :
  ∃ (j : nat) evs,
    trace (snd (get_data_with_retry (E := provider 1 sample_table [])
                  "小金属" "20231107" "20231114" None fresh))
    = (trace fresh ++ evs)%list
    ∧ (evs = []
       ∨ evs = (failed_attempts "小金属" "20231107" "20231114" j 0
                ++ [EvHist "小金属" "20231107" "20231114"])%list)
    ∧ Z.of_nat j < 3
    ∧ sleeps_of evs = (fun i => 2 ^ Z.of_nat i) <$> seq 0 (length (sleeps_of evs))
    ∧ total_sleep evs <= 2 ^ Z.of_nat j - 1
    ∧ 2 ^ Z.of_nat j - 1 <= 2 ^ (3 - 1) - 1
    ∧ (hist_calls evs <= 3)%nat.
Proof.
  apply (@get_data_with_retry_schedule (provider 1 sample_table [])
           "小金属" "20231107" "20231114" None fresh).
  discriminate.
Defined.

(** ** [get_board_data]: cost, failure, and what a record holds *)

Lemma costs_refl w : costs 0 0 w w.
Proof.
  exists []. rewrite app_nil_r. split; [reflexivity|].
  split; [apply Nat.le_refl | reflexivity].
Qed.

Lemma costs_trans a b a' b' w1 w2 w3 :
  costs a b w1 w2 -> costs a' b' w2 w3 -> costs (a + a') (b + b') w1 w3.
Proof.
  intros (e1 & H1 & C1 & S1) (e2 & H2 & C2 & S2). exists (e1 ++ e2)%list.
  split; [rewrite H2, H1, app_assoc; reflexivity|].
  rewrite hist_calls_app, total_sleep_app. split; lia.
Qed.

Lemma costs_log ev w :
  is_hist ev = false -> sleeps_of [ev] = [] -> costs 0 0 w (log ev w).
Proof.
  intros Hh Hs. exists [ev]. split; [reflexivity|].
  unfold hist_calls, total_sleep. rewrite Hs. simpl. rewrite Hh. simpl.
  split; lia.
Qed.

Lemma costs_weaken a b a' b' w w' :
  (a <= a')%nat -> b <= b' -> costs a b w w' -> costs a' b' w w'.
Proof. intros Ha Hb (evs & H & C & S). exists evs. repeat split; [exact H|lia|lia]. Qed.

Section PassCost.
Context {E : Env}.

(** A call with the default of three attempts. *)
Lemma get_data_with_retry_costs symbol start_date end_date w :
  costs 3 3 w (snd (get_data_with_retry symbol start_date end_date None w)).
Proof.
  destruct (cache_get (symbol, start_date, end_date, None) (lru w)) as [v|] eqn:Hc.
  - rewrite (get_data_with_retry_hit _ _ _ _ _ _ Hc).
    exists []. simpl. rewrite app_nil_r. split; [reflexivity|].
    unfold hist_calls, total_sleep. simpl. split; lia.
  - rewrite (get_data_with_retry_miss _ _ _ _ _ Hc).
    unfold get_data_with_retry_body. simpl default.
    destruct (attempts_shape symbol start_date end_date default_max_retries
                (Z.to_nat default_max_retries) 0 w) as (j & Hj & Hw);
      [unfold default_max_retries; lia | unfold default_max_retries; lia |].
    exists (failed_attempts symbol start_date end_date j 0
            ++ [EvHist symbol start_date end_date])%list.
    split.
    { destruct (attempts _ _ _ _ _ _ w) as [[v|e] w1]; simpl in *;
        rewrite Hw; reflexivity. }
    rewrite hist_calls_failed_attempts, total_sleep_failed_attempts by lia.
    change (total_sleep [EvHist symbol start_date end_date]) with 0.
    change (hist_calls [EvHist symbol start_date end_date]) with 1%nat.
    change (Z.to_nat default_max_retries) with 3%nat in Hj.
    change (2 ^ 0) with 1. rewrite Z.add_0_l, Z.add_0_r. split; [lia|].
    assert (2 ^ Z.of_nat j <= 2 ^ 2) by (apply Z.pow_le_mono_r; lia).
    change (2 ^ 2) with 4 in *. lia.
Qed.

Lemma fetch_costs name w : costs 3 3 w (snd (fetch name w)).
Proof.
  unfold fetch, bind, now. cbv beta iota.
  apply (costs_trans 0 0 3 3 _ (log EvNow (log EvNow w))).
  - apply (costs_trans 0 0 0 0 _ (log EvNow w)); apply costs_log; reflexivity.
  - apply get_data_with_retry_costs.
Qed.

Lemma board_iteration_costs name data_list w :
  costs 3 3 w (snd (board_iteration name data_list w)).
Proof.
  rewrite board_iteration_cases, latest_of_fetch.
  pose proof (fetch_costs name w) as H.
  assert (Hwarn : ∀ e w', costs 3 3 w w' ->
                    costs 3 3 w (log (EvWarning (failure_text name e)) w')).
  { intros e w' Hc.
    eapply costs_weaken;
      [| |apply (costs_trans 3 3 0 0 w w' _ Hc); apply costs_log; reflexivity];
      lia. }
  destruct (fetch name w) as [[[df|]|e] w']; simpl in *.
  - destruct (last (rows df)); simpl; [exact H | apply Hwarn, H].
  - apply Hwarn, H.
  - apply Hwarn, H.
Qed.

Lemma for_each_board_iteration_costs names :
  ∀ data_list w,
    costs (3 * length names) (3 * Z.of_nat (length names)) w
      (snd (for_each names board_iteration data_list w)).
Proof.
  induction names as [|name names IH]; intros data_list w.
  - simpl. apply costs_refl.
  - simpl for_each. unfold bind.
    pose proof (board_iteration_costs name data_list w) as H.
    rewrite board_iteration_cases in *.
    destruct (latest_of name w) as [[r|e] w']; simpl snd in *;
      (eapply costs_weaken; [| |eapply costs_trans; [exact H | apply IH]];
       simpl length; lia).
Qed.

(** X5.  A pass over a directory of [N] sectors calls the historical
    endpoint [3 N] times at most and sleeps [3 N] seconds at most (three
    attempts and waits of one and two seconds for a sector), whatever
    the provider answers and whatever the cache holds. *)
Theorem get_board_data_costs (w : World) (names : list string) :
  stock_board_industry_name_em (trace w) = Ok names ->
  costs (3 * length names) (3 * Z.of_nat (length names)) w
    (snd (get_board_data w)).
Proof.
  intros Hdir. unfold get_board_data, bind, names_em. rewrite Hdir.
  pose proof (for_each_board_iteration_costs names [] (log EvNames w)) as H.
  destruct (for_each names board_iteration [] (log EvNames w)) as [[dl|e] w'];
    simpl snd in *;
    (eapply costs_weaken;
     [| |apply (costs_trans 0 0 (3 * length names)
                  (3 * Z.of_nat (length names)) w (log EvNames w));
         [apply costs_log; reflexivity | exact H]]; lia).
Qed.

(** X6.  [get_board_data] raises exactly when the directory call does:
    the exception is the directory's, no sector has been fetched, no
    warning shown, and the cache is untouched. *)
Theorem get_board_data_raise (w : World) (e : Exception) :
  (fst (get_board_data w) = Raise e
   <-> stock_board_industry_name_em (trace w) = Raise e)
  ∧ (stock_board_industry_name_em (trace w) = Raise e ->
     get_board_data w = (Raise e, log EvNames w)).
Proof.
  unfold get_board_data, bind, names_em.
  destruct (stock_board_industry_name_em (trace w)) as [names|e0] eqn:Hdir.
  - pose proof (for_each_board_iteration_ok names [] (log EvNames w)) as H.
    destruct (for_each names board_iteration [] (log EvNames w)) as [[dl|e1] w'];
      [|discriminate].
    split; [split|]; discriminate.
  - split; [split|]; simpl; congruence.
Qed.

End PassCost.

(** Two sectors, the provider down for four calls: five calls, four
    seconds. *)
Lemma get_board_data_costs_witness :
  costs (3 * 2) (3 * 2)%Z fresh
    (snd (get_board_data (E := provider 4 sample_table ["小金属"; "银行"]) fresh)).
Proof.
  apply (@get_board_data_costs (provider 4 sample_table ["小金属"; "银行"])
           fresh ["小金属"; "银行"]).
  reflexivity.
Defined.

Lemma lookup_to_dict df (r : Row) c :
  to_dict df r !! c
  = if decide (c ∈ columns df) then Some (cell r c) else None.
Proof.
  unfold to_dict. destruct (decide (c ∈ columns df)) as [Hin|Hnin].
  - apply lookup_set_to_map; [intros y y' _ _ Hy; exact Hy|].
    exists c. split; [exact Hin | reflexivity].
  - apply eq_None_not_Some. intros [x Hx].
    apply lookup_set_to_map in Hx as (y & Hy & Heq);
      [|intros y y' _ _ Hy; exact Hy].
    injection Heq as -> _. contradiction.
Qed.

Section Record.
Context {E : Env}.

(** X7.  The record that a turn of the loop appends for a sector is the
    last row of the table its fetch returned, in table order: it has one
    entry for each column of the table, the cell of that row, and the
    entry 板块名称 with the name of the sector, which replaces a column of
    that name if the table has one. *)
Theorem latest_of_record (name : string) (w w' : World) (r : Row) :
  latest_of name w = (Ok r, w') ->
  ∃ df last_row,
    fetch name w = (Ok (Some df), w')
    ∧ last (rows df) = Some last_row
    ∧ r !! "板块名称" = Some (CStr name)
    ∧ (∀ c, c ≠ "板块名称" ->
            r !! c = if decide (c ∈ columns df) then Some (cell last_row c)
                     else None)
    ∧ dom r = {["板块名称"]} ∪ columns df.
Proof.
  rewrite latest_of_fetch.
  destruct (fetch name w) as [[[df|]|e] w1]; [|discriminate|discriminate].
  destruct (last (rows df)) as [last_row|] eqn:Hlast; [|discriminate].
  intros [= <- <-]. exists df, last_row.
  split; [reflexivity|]. split; [exact Hlast|].
  split; [apply lookup_insert_eq|]. split.
  - intros c Hc. rewrite lookup_insert_ne by congruence. apply lookup_to_dict.
  - rewrite dom_insert_L. f_equal. apply set_eq. intros c.
    rewrite elem_of_dom, lookup_to_dict.
    destruct (decide (c ∈ columns df)) as [Hin|Hnin].
    + split; [intros _; exact Hin | intros _; eexists; reflexivity].
    + split; [intros [x Hx]; discriminate | contradiction].
Qed.

End Record.

(** Of a table of two days the record is the later day's, with the name
    of the sector. *)
Lemma latest_of_record_witness :
  ∃ df last_row,
    fetch (E := provider 0 two_day_table []) "小金属" fresh
    = (Ok (Some df),
       snd (latest_of (E := provider 0 two_day_table []) "小金属" fresh))
    ∧ last (rows df) = Some last_row
    ∧ <["板块名称" := CStr "小金属"]> sample_row !! "板块名称"
      = Some (CStr "小金属")
    ∧ (∀ c, c ≠ "板块名称" ->
            <["板块名称" := CStr "小金属"]> sample_row !! c
            = if decide (c ∈ columns df) then Some (cell last_row c) else None)
    ∧ dom (<["板块名称" := CStr "小金属"]> sample_row)
      = {["板块名称"]} ∪ columns df.
Proof.
  apply (@latest_of_record (provider 0 two_day_table []) "小金属" fresh).
  vm_compute. reflexivity.
Defined.

(** ** [process_data]: columns and formulas *)

Section TransformExtras.
Context {E : Env}.

Lemma columns_coerce cols :
  ∀ df, columns (coerce cols df) = list_to_set cols ∪ columns df.
Proof.
  unfold coerce. induction cols as [|c cols IH]; intros df; simpl.
  - rewrite union_empty_l_L. reflexivity.
  - rewrite IH. simpl. rewrite (union_comm_L {[c]} (list_to_set cols)).
    rewrite union_assoc_L. reflexivity.
Qed.

Lemma columns_assign c f df : columns (assign c f df) = {[c]} ∪ columns df.
Proof. reflexivity. Qed.

Lemma columns_select mask df : columns (select mask df) = columns df.
Proof. reflexivity. Qed.

Lemma has_columns_elem cols df :
  has_columns cols df = true <-> ∀ c, c ∈ cols -> c ∈ columns df.
Proof.
  unfold has_columns. rewrite forallb_forall. split.
  - intros H c Hc. apply list_elem_of_In, H in Hc.
    apply bool_decide_eq_true in Hc. exact Hc.
  - intros H c Hc. apply bool_decide_eq_true, H, list_elem_of_In, Hc.
Qed.

(** A column that is neither numeric nor derived goes through as it
    is. *)
Lemma derive_other r c :
  c ∉ numeric_cols -> c ∉ derived_cols -> derive r !! c = r !! c.
Proof.
  intros Hn Hd. unfold derive.
  assert (Hpct : c ≠ "涨跌幅").
  { intros ->. apply Hn, numeric_col_pct. }
  assert (Hd' : c ≠ "量价强度" ∧ c ≠ "成交额（亿）" ∧ c ≠ "成交量（万手）").
  { unfold derived_cols in Hd. rewrite !not_elem_of_cons in Hd. tauto. }
  destruct Hd' as (H1 & H2 & H3).
  rewrite !lookup_insert_ne by congruence.
  unfold numeric_cols in Hn. rewrite !not_elem_of_cons in Hn.
  destruct Hn as (N1 & N2 & N3 & N4 & N5 & N6 & N7 & N8 & N9 & _).
  unfold coerce_row, numeric_cols. simpl.
  rewrite !lookup_insert_ne by congruence. reflexivity.
Qed.

(** A numeric column other than 涨跌幅 holds what [pd.to_numeric] read. *)
Lemma derive_numeric r c :
  c ∈ numeric_cols -> c ≠ "涨跌幅" ->
  cell (derive r) c = CNum (to_numeric (cell r c)).
Proof.
  intros Hin Hpct. unfold derive.
  assert (Hd : c ≠ "量价强度" ∧ c ≠ "成交额（亿）" ∧ c ≠ "成交量（万手）").
  { unfold numeric_cols in Hin. rewrite !elem_of_cons in Hin.
    repeat split; intros ->;
      repeat (destruct Hin as [Hin|Hin]; [discriminate|]);
      apply elem_of_nil in Hin; exact Hin. }
  destruct Hd as (H1 & H2 & H3).
  rewrite !cell_insert.
  repeat (destruct (decide _) as [Heq|_]; [exfalso; congruence|]).
  rewrite cell_coerce_row.
  destruct (decide (c ∈ numeric_cols)); [reflexivity | contradiction].
Qed.

Lemma derive_lots r :
  cell (derive r) "成交量（万手）"
  = CNum (PrimFloat.div (to_numeric (cell r "成交量")) 10000%float).
Proof.
  unfold derive. cells. unfold num at 1. cells.
  fold (num (coerce_row numeric_cols r) "成交量").
  rewrite num_coerce_row by apply numeric_col_volume. reflexivity.
Qed.

(** X8.  The table [process_data] returns has the columns of the table
    it was given and 量价强度, 成交额（亿）, 成交量（万手）; in its rows a column
    that is neither one of the nine numeric ones nor one of these three
    (日期, 板块名称, ...) holds what it held, and a numeric column other
    than 涨跌幅 holds the number [pd.to_numeric] read there, NaN for what
    does not read as a number. *)
Theorem process_data_columns (df out : DataFrame) :
  process_data df = Ok out ->
  columns out = columns df ∪ list_to_set derived_cols
  ∧ (∀ r', r' ∈ rows out ->
       ∃ r, r ∈ rows df
            ∧ (∀ c, c ∉ numeric_cols -> c ∉ derived_cols -> r' !! c = r !! c)
            ∧ (∀ c, c ∈ numeric_cols -> c ≠ "涨跌幅" ->
                    cell r' c = CNum (to_numeric (cell r c)))).
Proof.
  intros Hout. split.
  - unfold process_data in Hout.
    destruct (has_columns numeric_cols df) eqn:Hcols; [|discriminate].
    injection Hout as <-.
    pose proof (proj1 (has_columns_elem _ _) Hcols) as Hall.
    clear Hcols. rename Hall into Hcols.
    unfold dropna. rewrite !columns_select, !columns_assign.
    assert (Hin : ∀ c, c ∈ numeric_cols -> {[c]} ∪ columns df = columns df).
    { intros c Hc. apply subseteq_union_1_L, singleton_subseteq_l, Hcols, Hc. }
    repeat (rewrite Hin by (apply list_elem_of_In; simpl; tauto)).
    unfold derived_cols. simpl. apply set_eq. intros c.
    rewrite !elem_of_union, !elem_of_singleton, elem_of_empty.
    pose proof (Hcols "涨跌幅" numeric_col_pct) as Hpct.
    split; [|tauto]. intros [->|H]; [left; exact Hpct | tauto].
  - intros r' Hin. rewrite (process_data_rows _ _ Hout) in Hin.
    apply list_elem_of_In, filter_In in Hin as [Hin _].
    apply list_elem_of_In, list_elem_of_fmap in Hin as (r & -> & Hr).
    exists r. split; [exact Hr|]. split.
    + intros c. apply derive_other.
    + intros c. apply derive_numeric.
Qed.

(** X9.  Every row of the result is derived from a row of the table
    given, and the rows keep their order.  With [x], [t], [a] and [v]
    the numbers read in 涨跌幅, 换手率, 成交额 and 成交量 of that row: 量价强度
    is [x * t], the product with 涨跌幅 as it came and not as it is
    stored; 涨跌幅 is [x * 100]; 成交额（亿） is [a / 1e8]; 成交量（万手） is
    [v / 10000]. *)
Theorem process_data_formulas (df out : DataFrame) :
  process_data df = Ok out ->
  rows out `sublist_of` (derive <$> rows df)
  ∧ (∀ r', r' ∈ rows out ->
       ∃ r, r ∈ rows df ∧ r' = derive r
            ∧ cell r' "量价强度"
              = CNum (PrimFloat.mul (to_numeric (cell r "涨跌幅"))
                                    (to_numeric (cell r "换手率")))
            ∧ cell r' "涨跌幅"
              = CNum (PrimFloat.mul (to_numeric (cell r "涨跌幅")) 100%float)
            ∧ cell r' "成交额（亿）"
              = CNum (PrimFloat.div (to_numeric (cell r "成交额")) 1e8%float)
            ∧ cell r' "成交量（万手）"
              = CNum (PrimFloat.div (to_numeric (cell r "成交量")) 10000%float)).
Proof.
  intros Hout. rewrite (process_data_rows _ _ Hout). split.
  - induction (derive <$> rows df) as [|x l IH]; simpl; [constructor|].
    destruct (valid x); [apply sublist_skip | apply sublist_cons]; exact IH.
  - intros r' Hin. apply list_elem_of_In, filter_In in Hin as [Hin _].
    apply list_elem_of_In, list_elem_of_fmap in Hin as (r & -> & Hr).
    exists r. split; [exact Hr|]. split; [reflexivity|].
    rewrite derive_intensity, derive_pct, derive_amount, derive_lots.
    repeat split.
Qed.

(** X10.  On the table made of a list of records, [process_data] returns
    exactly when each of the nine numeric columns is a key of one record
    at least, and raises [KeyError] otherwise; so it raises on the table
    of no record at all. *)
Theorem process_data_of_records (data_list : list Row) :
  (is_ok (process_data (DataFrame_of_records data_list)) = true
   <-> ∀ c, c ∈ numeric_cols -> ∃ r, r ∈ data_list ∧ is_Some (r !! c))
  ∧ (is_ok (process_data (DataFrame_of_records data_list)) = false ->
     process_data (DataFrame_of_records data_list)
     = Raise (KeyError "numeric_cols"))
  ∧ process_data (DataFrame_of_records []) = Raise (KeyError "numeric_cols").
Proof.
  assert (Hcol : ∀ c, c ∈ columns (DataFrame_of_records data_list)
                      <-> ∃ r, r ∈ data_list ∧ is_Some (r !! c)).
  { intros c. unfold DataFrame_of_records. simpl.
    rewrite elem_of_union_list. split.
    - intros (X & HX & Hc). apply list_elem_of_fmap in HX as (r & -> & Hr).
      exists r. split; [exact Hr | apply elem_of_dom, Hc].
    - intros (r & Hr & Hc). exists (dom r). split.
      + apply list_elem_of_fmap. exists r. split; [reflexivity | exact Hr].
      + apply elem_of_dom, Hc. }
  split; [|split].
  - unfold process_data.
    destruct (has_columns numeric_cols (DataFrame_of_records data_list)) eqn:H.
    + pose proof (proj1 (has_columns_elem _ _) H) as Hall.
      split; [|reflexivity].
      intros _ c Hc. apply Hcol, Hall, Hc.
    + split; [discriminate|]. intros Hall. exfalso.
      assert (has_columns numeric_cols (DataFrame_of_records data_list) = true);
        [|congruence].
      apply has_columns_elem. intros c Hc. apply Hcol, Hall, Hc.
  - unfold process_data.
    destruct (has_columns numeric_cols (DataFrame_of_records data_list));
      [discriminate | reflexivity].
  - reflexivity.
Qed.

(** X13.  When the 日期 of every record is a string, the date filter
    returns, without raising, the records whose 日期 is the cut-off or
    after it in the order of strings, in the order they came. *)
Theorem date_filter_strings (cutoff : string) (rs : list Row) :
  (∀ r, r ∈ rs -> ∃ s, cell r "日期" = CStr s) ->
  date_filter cutoff rs = Ok (List.filter (on_or_after cutoff) rs).
Proof.
  induction rs as [|r rs IH]; intros Hstr; [reflexivity|].
  simpl. destruct (Hstr r) as [s Hs]; [apply elem_of_cons; left; reflexivity|].
  rewrite IH by (intros r' Hr'; apply Hstr, elem_of_cons; right; exact Hr').
  unfold on_or_after. rewrite Hs. simpl.
  destruct (String.leb cutoff s); reflexivity.
Qed.

End TransformExtras.

(** The sample table: three derived columns beside the ten it has. *)
Lemma process_data_columns_witness :
  columns (processed mixed_table) = sample_columns ∪ list_to_set derived_cols
  ∧ (∀ r', r' ∈ rows (processed mixed_table) ->
       ∃ r, r ∈ rows mixed_table
            ∧ (∀ c, c ∉ numeric_cols -> c ∉ derived_cols -> r' !! c = r !! c)
            ∧ (∀ c, c ∈ numeric_cols -> c ≠ "涨跌幅" ->
                    cell r' c
                    = CNum (to_numeric (E := provider 0 sample_table []) (cell r c)))).
Proof.
  apply (@process_data_columns (provider 0 sample_table [])
           mixed_table (processed mixed_table)).
  reflexivity.
Defined.

Lemma process_data_formulas_witness :
  rows (processed mixed_table)
    `sublist_of` (derive (H := provider 0 sample_table []) <$> rows mixed_table)
  ∧ (∀ r', r' ∈ rows (processed mixed_table) ->
       ∃ r, r ∈ rows mixed_table
            ∧ r' = derive (H := provider 0 sample_table []) r
            ∧ cell r' "量价强度"
              = CNum (PrimFloat.mul
                        (to_numeric (E := provider 0 sample_table []) (cell r "涨跌幅"))
                        (to_numeric (E := provider 0 sample_table []) (cell r "换手率")))
            ∧ cell r' "涨跌幅"
              = CNum (PrimFloat.mul
                        (to_numeric (E := provider 0 sample_table []) (cell r "涨跌幅"))
                        100%float)
            ∧ cell r' "成交额（亿）"
              = CNum (PrimFloat.div
                        (to_numeric (E := provider 0 sample_table []) (cell r "成交额"))
                        1e8%float)
            ∧ cell r' "成交量（万手）"
              = CNum (PrimFloat.div
                        (to_numeric (E := provider 0 sample_table []) (cell r "成交量"))
                        10000%float)).
Proof.
  apply (@process_data_formulas (provider 0 sample_table [])
           mixed_table (processed mixed_table)).
  reflexivity.
Defined.

(** Two days and a cut-off between them. *)
Lemma date_filter_strings_witness :
  date_filter "2023-11-14" (rows two_day_table)
  = Ok (List.filter (on_or_after "2023-11-14") (rows two_day_table)).
Proof.
  apply (date_filter_strings "2023-11-14" (rows two_day_table)).
  intros r Hr. apply list_elem_of_In in Hr. simpl in Hr.
  destruct Hr as [<-|[<-|[]]]; eexists; reflexivity.
Defined.

(** ** [main]: what stops it, and what does not *)

Section MainExtras.
Context {E : Env}.
Variables (color_metric size_metric : string) (date_range : Z)
          (color_scale : string).

Lemma get_board_data_of_records w raw w1 :
  get_board_data w = (Ok raw, w1) -> raw = DataFrame_of_records (rows raw).
Proof.
  unfold get_board_data, bind, names_em, ret.
  destruct (stock_board_industry_name_em (trace w)); [|discriminate].
  destruct (for_each _ _ _ _) as [[dl|e] w']; [|discriminate].
  intros [= <- _]. reflexivity.
Qed.

(** X11.  When the snapshot store is empty and the pass returns a table
    without rows (no sector gave a record), [main] does not reach its
    check of [filtered_df.empty]: the table has no columns, the
    transform raises [KeyError], and [main] raises it, after the
    warnings of the pass and without the advisory. *)
Theorem main_raises_without_records (w w1 : World) (raw_df : DataFrame) :
  cache_data_get (trace (log EvNow w)) = None ->
  get_board_data (log EvNow w) = (Ok raw_df, w1) ->
  rows raw_df = [] ->
  main color_metric size_metric date_range color_scale w
  = (Raise (KeyError "numeric_cols"), w1).
Proof.
  intros Hmiss Hrun Hrows.
  pose proof (get_board_data_of_records _ _ _ Hrun) as Hraw.
  rewrite Hrows in Hraw.
  unfold main, bind, now, lift, cache_data. cbv beta iota.
  rewrite Hmiss, Hrun. cbv beta iota. rewrite Hraw. reflexivity.
Qed.

(** X14.  When the snapshot store is empty and the directory call
    raises, [main] raises the same exception: nothing is fetched and
    nothing is shown. *)
Theorem main_raises_without_directory (w : World) (e : Exception) :
  cache_data_get (trace (log EvNow w)) = None ->
  stock_board_industry_name_em (trace (log EvNow w)) = Raise e ->
  main color_metric size_metric date_range color_scale w
  = (Raise e, log EvNames (log EvNow w)).
Proof.
  intros Hmiss Hdir.
  unfold main, bind, now, lift, cache_data, get_board_data, names_em.
  cbv beta iota. rewrite Hmiss. unfold bind. rewrite Hdir. reflexivity.
Qed.

(** X12.  With a table that has rows after the date filter, [main]
    returns normally whatever the plotting library does: when
    [px.treemap] raises it shows 创建图表时出现错误 with the message and
    draws nothing; when [update_layout] raises it shows 更新图表布局时出错
    and draws nothing; when both return it draws the chart and then the
    table. *)
Theorem main_chart_errors (w w1 : World) (raw_df processed_df : DataFrame)
    (kept : list Row) :
  cache_data get_board_data (log EvNow w) = (Ok raw_df, w1) ->
  process_data raw_df = Ok processed_df ->
  "日期" ∈ columns processed_df ->
  date_filter (strftime "%Y-%m-%d" (clock (trace w1) - timedelta_days date_range))
    (rows processed_df) = Ok kept ->
  kept ≠ [] ->
  color_metric ∈ columns processed_df ->
  main color_metric size_metric date_range color_scale w
  = (Ok tt,
     match px_treemap (trace (log EvTreemap (log EvNow w1)))
             {| columns := columns processed_df; rows := kept |}
             size_metric color_metric color_scale
             (range_color color_metric
                {| columns := columns processed_df; rows := kept |}) with
     | Raise e =>
         log (EvError ("创建图表时出现错误: " +:+ exc_msg e))
           (log EvTreemap (log EvNow w1))
     | Ok _ =>
         match fig_update_layout
                 (trace (log EvUpdateLayout (log EvTreemap (log EvNow w1))))
                 color_metric with
         | Raise e =>
             log (EvError ("更新图表布局时出错: " +:+ exc_msg e))
               (log EvUpdateLayout (log EvTreemap (log EvNow w1)))
         | Ok _ =>
             log EvDataframe
               (log EvPlotlyChart
                  (log EvUpdateLayout (log EvTreemap (log EvNow w1))))
         end
     end).
Proof.
  intros Hraw Hproc Hcol Hfilter Hkept Hmetric.
  unfold main, bind, now, lift. cbv beta iota.
  rewrite Hraw. cbv beta iota. rewrite Hproc. cbv beta iota.
  rewrite (bool_decide_eq_true_2 _ Hcol). unfold ret. cbv beta iota.
  rewrite Hfilter. cbv beta iota zeta.
  destruct kept as [|r kept]; [contradiction|].
  unfold empty. cbn [rows columns]. cbv beta iota.
  rewrite (bool_decide_eq_true_2 _ Hmetric). cbv beta iota.
  unfold try_except, bind, emit, ret. cbv beta iota.
  destruct (px_treemap _ _ _ _ _ _) as [[]|e]; cbv beta iota; [|reflexivity].
  destruct (fig_update_layout _ _) as [[]|e]; reflexivity.
Qed.

(** X15.  While the snapshot store holds a table, [main] neither calls
    the provider nor waits for it, and leaves the cache of
    [get_data_with_retry] as it is, whatever the table and whatever
    becomes of the chart. *)
Theorem main_snapshot_offline (w : World) (snapshot : DataFrame) :
  cache_data_get (trace (log EvNow w)) = Some snapshot ->
  lru (snd (main color_metric size_metric date_range color_scale w)) = lru w
  ∧ ∃ evs,
      trace (snd (main color_metric size_metric date_range color_scale w))
      = (trace w ++ evs)%list
      ∧ List.filter is_provider evs = [].
Proof.
  intros Hhit.
  unfold main, bind, now, lift, cache_data, try_except, emit, ret, raise.
  cbv beta iota. rewrite Hhit. cbv beta iota zeta.
  repeat match goal with
         | |- context [match ?x with _ => _ end] =>
             lazymatch x with
             | context [match _ with _ => _ end] => fail
             | _ => destruct x; cbv beta iota zeta
             end
         end;
    (split; [reflexivity|]; eexists;
     (split; [simpl; rewrite <- ?app_assoc; reflexivity | reflexivity])).
Qed.

End MainExtras.

(** One sector, a week without a trading day. *)
Lemma main_raises_without_records_witness :
  main (E := provider 0 no_rows_table ["小金属"])
    "涨跌幅" "成交额（亿）" 7 "RdYlGn_r" fresh
  = (Raise (KeyError "numeric_cols"),
     snd (get_board_data (E := provider 0 no_rows_table ["小金属"])
            (log EvNow fresh))).
Proof.
  apply (@main_raises_without_records (provider 0 no_rows_table ["小金属"])
           "涨跌幅" "成交额（亿）" 7 "RdYlGn_r" fresh _
           (DataFrame_of_records [])).
  - reflexivity.
  - reflexivity.
  - reflexivity.
Defined.

Lemma main_raises_without_directory_witness :
  main (E := offline) "涨跌幅" "成交额（亿）" 7 "RdYlGn_r" fresh
  = (Raise directory_down, log EvNames (log EvNow fresh)).
Proof.
  apply (@main_raises_without_directory offline
           "涨跌幅" "成交额（亿）" 7 "RdYlGn_r" fresh directory_down);
    reflexivity.
Defined.

(** [px.treemap] raises: an error message, no chart. *)
Lemma main_chart_errors_witness :
  let w1 := snd (get_board_data (E := studio (Raise ValueError) (Ok tt))
                   (log EvNow fresh)) in
  main (E := studio (Raise ValueError) (Ok tt))
    "涨跌幅" "成交额（亿）" 7 "RdYlGn_r" fresh
  = (Ok tt,
     log (EvError "创建图表时出现错误: Invalid property specified for object of type Figure")
       (log EvTreemap (log EvNow w1))).
Proof.
  apply (@main_chart_errors (studio (Raise ValueError) (Ok tt))
           "涨跌幅" "成交额（亿）" 7 "RdYlGn_r" fresh
           (snd (get_board_data (E := studio (Raise ValueError) (Ok tt))
                   (log EvNow fresh)))
           (match fst (get_board_data (E := studio (Raise ValueError) (Ok tt))
                         (log EvNow fresh)) with
            | Ok d => d | Raise _ => sample_table end)
           (match process_data (E := studio (Raise ValueError) (Ok tt))
                    (match fst (get_board_data
                                  (E := studio (Raise ValueError) (Ok tt))
                                  (log EvNow fresh)) with
                     | Ok d => d | Raise _ => sample_table end) with
            | Ok d => d | Raise _ => sample_table end)
           (rows (match process_data (E := studio (Raise ValueError) (Ok tt))
                          (match fst (get_board_data
                                        (E := studio (Raise ValueError) (Ok tt))
                                        (log EvNow fresh)) with
                           | Ok d => d | Raise _ => sample_table end) with
                  | Ok d => d | Raise _ => sample_table end))).
  - reflexivity.
  - reflexivity.
  - vm_compute. reflexivity.
  - reflexivity.
  - vm_compute. discriminate.
  - vm_compute. reflexivity.
Defined.

(** The store holds the sample table. *)
Lemma main_snapshot_offline_witness :
  lru (snd (main (E := replaying sample_table)
              "涨跌幅" "成交额（亿）" 7 "RdYlGn_r" fresh)) = lru fresh
  ∧ ∃ evs,
      trace (snd (main (E := replaying sample_table)
                    "涨跌幅" "成交额（亿）" 7 "RdYlGn_r" fresh))
      = (trace fresh ++ evs)%list
      ∧ List.filter is_provider evs = [].
Proof.
  apply (@main_snapshot_offline (replaying sample_table)
           "涨跌幅" "成交额（亿）" 7 "RdYlGn_r" fresh sample_table).
  reflexivity.
Defined.

(** ** A second pass on the same day *)

Lemma take_app_take {A} (n : nat) (l k : list A) :
  take n (l ++ take n k)%list = take n (l ++ k)%list.
Proof.
  rewrite !take_app, take_take. f_equal. f_equal. lia.
Qed.

Lemma cache_put_keys k v c :
  cache_get k c = None -> (length c <= maxsize)%nat ->
  cache_keys (cache_put k v c) = take maxsize (k :: cache_keys c).
Proof.
  intros Hmiss Hlen. unfold cache_put. rewrite Hmiss.
  destruct (Nat.leb_spec maxsize (length c)) as [Hfull|Hroom].
  - change (cache_keys ((k, v) :: removelast c))
      with (k :: cache_keys (removelast c)).
    change maxsize with (S 31). change (take (S 31) (k :: cache_keys c))
      with (k :: take 31 (cache_keys c)).
    f_equal. rewrite removelast_firstn_len. unfold cache_keys.
    rewrite fmap_take. f_equal. unfold maxsize in *. lia.
  - change (cache_keys ((k, v) :: c)) with (k :: cache_keys c).
    symmetry. apply take_ge. unfold cache_keys. simpl.
    rewrite length_fmap. lia.
Qed.

Lemma key_of_inj d1 d2 : Inj (=) (=) (key_of d1 d2).
Proof. intros x y [= ->]. reflexivity. Qed.

Section SameDay.
Context {E : Env}.
Variables (d1 d2 : string).
Hypothesis Hday : same_day d1 d2.

Local Abbreviation key := (key_of d1 d2).

Lemma fetch_same_day name w :
  fetch name w = call (key name) (log EvNow (log EvNow w)).
Proof.
  unfold fetch, bind, now. cbv beta iota.
  destruct (Hday (trace w)) as [-> _].
  destruct (Hday (trace (log EvNow w))) as [_ ->]. reflexivity.
Qed.

Lemma board_iteration_lru name data_list w :
  lru (snd (board_iteration name data_list w)) = lru (snd (fetch name w)).
Proof.
  rewrite board_iteration_cases, latest_of_fetch.
  destruct (fetch name w) as [[[df|]|e] w']; simpl; try reflexivity.
  destruct (last (rows df)); reflexivity.
Qed.

Lemma board_iteration_call_lru name data_list w :
  lru (snd (board_iteration name data_list w))
  = lru (snd (call (key name) (log EvNow (log EvNow w)))).
Proof. rewrite board_iteration_lru, fetch_same_day. reflexivity. Qed.

(** The loop of [get_board_data] ends in the world [pass_end] gives. *)
Lemma for_each_pass_end names :
  ∀ data_list w,
    snd (for_each names board_iteration data_list w) = pass_end names w.
Proof.
  induction names as [|name names IH]; intros data_list w; [reflexivity|].
  simpl. unfold bind. rewrite <- (board_iteration_world name data_list w).
  rewrite board_iteration_cases.
  destruct (latest_of name w) as [[r|e] w']; simpl; apply IH.
Qed.

Lemma pass_end_app a b :
  ∀ w, pass_end (a ++ b) w = pass_end b (pass_end a w).
Proof. induction a as [|n a IH]; intros w; [reflexivity | apply IH]. Qed.

Lemma pass_end_NoDup names :
  ∀ w, NoDup (cache_keys (lru w)) ->
       NoDup (cache_keys (lru (pass_end names w))).
Proof.
  induction names as [|name names IH]; intros w Hnd; [exact Hnd|].
  simpl. apply IH. rewrite board_iteration_call_lru.
  apply call_NoDup. exact Hnd.
Qed.

Lemma pass_end_length names :
  ∀ w, (length (lru w) <= maxsize)%nat ->
       (length (lru (pass_end names w)) <= maxsize)%nat.
Proof.
  induction names as [|name names IH]; intros w Hlen; [exact Hlen|].
  simpl. apply IH. rewrite board_iteration_call_lru.
  apply call_length. exact Hlen.
Qed.

Lemma recent_pass_end k v S names :
  ∀ w,
    (∀ n, n ∈ names -> key n ≠ k -> key n ∈ S) ->
    (size S < maxsize)%nat ->
    recent k v S (lru w) -> recent k v S (lru (pass_end names w)).
Proof.
  induction names as [|name names IH]; intros w HS Hsize Hrec; [exact Hrec|].
  simpl. apply IH; [|exact Hsize|].
  - intros n Hn. apply HS, elem_of_cons. right. exact Hn.
  - rewrite board_iteration_call_lru.
    apply recent_call; [|exact Hsize|exact Hrec].
    apply HS, elem_of_cons. left. reflexivity.
Qed.

(** X16.  On one day, with a directory of [maxsize = 32] distinct
    sectors at most: a sector whose fetch returned [v] in one pass gets
    [v] again in the next pass without a call of the provider and
    without a wait, whatever the provider would answer by then: the
    fetch only reads the clock twice. *)
Theorem second_pass_from_cache (pre post : list string) (name : string)
    (w w2 : World) (v : Value) :
  NoDup (pre ++ name :: post) ->
  (length (pre ++ name :: post) <= maxsize)%nat ->
  NoDup (cache_keys (lru w)) ->
  lru w2 = lru (snd (for_each (pre ++ name :: post) board_iteration [] w)) ->
  fst (fetch name (pass_end pre w)) = Ok v ->
  fst (fetch name (pass_end pre w2)) = Ok v
  ∧ trace (snd (fetch name (pass_end pre w2)))
    = (trace (pass_end pre w2) ++ [EvNow; EvNow])%list.
Proof.
  intros Hnd Hlen Hcache Hlru Hfetch.
  set (k := key name).
  set (S := list_to_set (key <$> (pre ++ post)%list) : gset Key).
  assert (Hnd' : NoDup (name :: pre ++ post))
    by (rewrite Permutation_middle; exact Hnd).
  apply NoDup_cons in Hnd' as [Hname Hnd'].
  assert (Hsize : (size S < maxsize)%nat).
  { unfold S. rewrite size_list_to_set
      by (apply (@NoDup_fmap_2 _ _ (key_of d1 d2) (key_of_inj d1 d2));
          exact Hnd').
    rewrite length_fmap. rewrite length_app in *. simpl in Hlen. lia. }
  assert (HS : ∀ n, n ∈ (pre ++ post)%list -> key n ∈ S).
  { intros n Hn. unfold S. apply elem_of_list_to_set, list_elem_of_fmap.
    exists n. split; [reflexivity | exact Hn]. }
  (* the first pass reaches the sector and caches [v] *)
  assert (Hrec1 : recent k v S
                    (lru (snd (board_iteration name [] (pass_end pre w))))).
  { rewrite board_iteration_call_lru.
    rewrite fetch_same_day in Hfetch.
    pose proof (call_NoDup (key name) (log EvNow (log EvNow (pass_end pre w)))
                  (pass_end_NoDup pre w Hcache)) as Hnd1.
    destruct (call (key name) (log EvNow (log EvNow (pass_end pre w))))
      as [r w'] eqn:Hcall.
    simpl in Hfetch, Hnd1 |- *. subst r.
    destruct (get_data_with_retry_cached _ _ _ _ _ _ _ Hcall) as (c & Hc & _).
    split; [exact Hnd1|]. exists [], c. split; [exact Hc|].
    intros k' Hk'. apply elem_of_nil in Hk'. contradiction. }
  (* it stays cached to the end of the pass and up to its turn in the next *)
  assert (Hrec2 : recent k v S (lru (pass_end pre w2))).
  { apply recent_pass_end; [|exact Hsize|].
    - intros n Hn _. apply HS, elem_of_app. left. exact Hn.
    - rewrite Hlru, for_each_pass_end, pass_end_app. simpl.
      apply recent_pass_end; [|exact Hsize|exact Hrec1].
      intros n Hn _. apply HS, elem_of_app. right. exact Hn. }
  apply recent_get in Hrec2.
  rewrite fetch_same_day. unfold call, key_of.
  rewrite (get_data_with_retry_hit name d1 d2 None
             (log EvNow (log EvNow (pass_end pre w2))) v Hrec2).
  split; [reflexivity|]. simpl. rewrite <- app_assoc. reflexivity.
Qed.

(** ** More than [maxsize] sectors *)

Lemma call_answered name w :
  cache_get (key name) (lru w) = None ->
  is_ok (stock_board_industry_hist_em (trace w) name d1 d2) = true ->
  ∃ df,
    call (key name) w
    = (Ok (Some df),
       {| trace := (trace w ++ [EvHist name d1 d2])%list;
          lru := cache_put (key name) (Some df) (lru w) |}).
Proof.
  intros Hmiss Hok.
  change (call (key name) w) with (get_data_with_retry name d1 d2 None w).
  rewrite (get_data_with_retry_miss name d1 d2 None w Hmiss).
  unfold get_data_with_retry_body.
  change (Z.to_nat (default default_max_retries None)) with 3%nat.
  rewrite attempts_S.
  destruct (stock_board_industry_hist_em (trace w) name d1 d2) as [df|e];
    [|discriminate].
  exists df. reflexivity.
Qed.

(** A turn that misses and is answered puts its key first. *)
Lemma board_iteration_put_keys name w :
  cache_get (key name) (lru w) = None ->
  answers d1 d2 [name] ->
  (length (lru w) <= maxsize)%nat ->
  cache_keys (lru (snd (board_iteration name [] w)))
  = take maxsize (key name :: cache_keys (lru w)).
Proof.
  intros Hmiss Hans Hlen. rewrite board_iteration_call_lru.
  destruct (call_answered name (log EvNow (log EvNow w)) Hmiss) as [df Hcall].
  { apply Hans, elem_of_cons. left. reflexivity. }
  rewrite Hcall. simpl. apply cache_put_keys; assumption.
Qed.

(** A run of turns that all miss: the cache holds the last [maxsize]
    keys, the latest first. *)
Lemma pass_end_keys names :
  ∀ w,
    (length (lru w) <= maxsize)%nat ->
    answers d1 d2 names ->
    (∀ a n b, names = (a ++ n :: b)%list ->
              key n ∉ take maxsize (reverse (key <$> a) ++ cache_keys (lru w))%list) ->
    cache_keys (lru (pass_end names w))
    = take maxsize (reverse (key <$> names) ++ cache_keys (lru w))%list.
Proof.
  induction names as [|n names IH]; intros w Hlen Hans Hout.
  - simpl. symmetry. apply take_ge. unfold cache_keys.
    rewrite length_fmap. exact Hlen.
  - assert (Hmiss : cache_get (key n) (lru w) = None).
    { apply cache_get_None_keys. intros Hin.
      apply (Hout [] n names eq_refl). simpl.
      rewrite take_ge by (unfold cache_keys; rewrite length_fmap; exact Hlen).
      exact Hin. }
    assert (Hkeys : cache_keys (lru (snd (board_iteration n [] w)))
                    = take maxsize (key n :: cache_keys (lru w))).
    { apply board_iteration_put_keys; [exact Hmiss| |exact Hlen].
      intros t m Hm. apply Hans. apply elem_of_cons. left.
      apply list_elem_of_singleton in Hm. exact Hm. }
    simpl pass_end. rewrite IH.
    + rewrite Hkeys, take_app_take. rewrite fmap_cons, reverse_cons.
      rewrite <- app_assoc. reflexivity.
    + rewrite board_iteration_call_lru. apply call_length. exact Hlen.
    + intros t m Hm. apply Hans. apply elem_of_cons. right. exact Hm.
    + intros a m b Hsplit. rewrite Hkeys, take_app_take.
      specialize (Hout (n :: a) m b). rewrite Hsplit in Hout.
      specialize (Hout eq_refl).
      rewrite fmap_cons, reverse_cons, <- app_assoc in Hout. exact Hout.
Qed.

(** With [maxsize] sectors or more between two turns of a sector, its
    key is not among the last [maxsize]. *)
Lemma outside_window a n rest keys0 :
  NoDup (a ++ n :: rest) ->
  (maxsize <= length a + length rest)%nat ->
  key n ∉ take maxsize (reverse (key <$> a)
                        ++ reverse (key <$> (a ++ n :: rest)%list) ++ keys0)%list.
Proof.
  intros Hnd Hlen Hin.
  rewrite fmap_app, fmap_cons, reverse_app, reverse_cons in Hin.
  rewrite <- !app_assoc in Hin. rewrite app_assoc in Hin.
  rewrite take_app_le in Hin
    by (rewrite length_app, !length_reverse, !length_fmap; lia).
  apply subseteq_take in Hin. apply elem_of_app in Hin.
  assert (Hnd' : NoDup (n :: a ++ rest))
    by (rewrite Permutation_middle; exact Hnd).
  apply NoDup_cons in Hnd' as [Hn _]. apply Hn.
  destruct Hin as [Hin|Hin]; apply elem_of_reverse, list_elem_of_fmap in Hin;
    destruct Hin as (m & Heq & Hm); apply (key_of_inj d1 d2) in Heq; subst m;
    apply elem_of_app; [left | right]; exact Hm.
Qed.

(** X17.  On one day, with a directory of more than [maxsize = 32]
    distinct sectors, a provider that answers, and none of the sectors
    cached at the start: in the pass after a full pass no sector is
    found in the cache, each one has been evicted by the thirty-two
    fetched after it, and its fetch calls the provider again. *)
Theorem second_pass_refetches (pre post : list string) (name : string)
    (w w2 : World) :
  NoDup (pre ++ name :: post) ->
  (maxsize < length (pre ++ name :: post))%nat ->
  answers d1 d2 (pre ++ name :: post) ->
  (∀ n, n ∈ (pre ++ name :: post)%list -> cache_get (key n) (lru w) = None) ->
  (length (lru w) <= maxsize)%nat ->
  lru w2 = lru (snd (for_each (pre ++ name :: post) board_iteration [] w)) ->
  cache_get (key name) (lru (pass_end pre w2)) = None
  ∧ ∃ df,
      fst (fetch name (pass_end pre w2)) = Ok (Some df)
      ∧ trace (snd (fetch name (pass_end pre w2)))
        = (trace (pass_end pre w2) ++ [EvNow; EvNow; EvHist name d1 d2])%list.
Proof.
  intros Hnd Hlen Hans Hfresh Hcap Hlru.
  (* the cache at the end of the first pass *)
  assert (Hkeys1 : cache_keys (lru w2)
                   = take maxsize (reverse (key <$> (pre ++ name :: post)%list)
                                   ++ cache_keys (lru w))%list).
  { rewrite Hlru, for_each_pass_end.
    apply pass_end_keys; [exact Hcap | exact Hans |].
    intros a n b Hsplit Hin. apply subseteq_take, elem_of_app in Hin.
    rewrite Hsplit in Hnd, Hfresh.
    destruct Hin as [Hin|Hin].
    - apply elem_of_reverse, list_elem_of_fmap in Hin as (m & Heq & Hm).
      apply (key_of_inj d1 d2) in Heq. subst m.
      apply NoDup_app in Hnd as (_ & Hdis & _).
      apply (Hdis n Hm). apply elem_of_cons. left. reflexivity.
    - assert (Hn : n ∈ (a ++ n :: b)%list)
        by (apply elem_of_app; right; apply elem_of_cons; left; reflexivity).
      apply Hfresh, cache_get_None_keys in Hn. contradiction. }
  assert (Hcap2 : (length (lru w2) <= maxsize)%nat).
  { rewrite Hlru, for_each_pass_end. apply pass_end_length, Hcap. }
  (* the cache when the second pass reaches the sector *)
  assert (Hkeys2 : cache_keys (lru (pass_end pre w2))
                   = take maxsize (reverse (key <$> pre) ++ cache_keys (lru w2))%list).
  { apply pass_end_keys; [exact Hcap2 | |].
    - intros t m Hm. apply Hans, elem_of_app. left. exact Hm.
    - intros a n b Hsplit. rewrite Hkeys1, take_app_take.
      rewrite Hsplit, <- app_assoc in Hnd, Hlen |- *. simpl in Hnd, Hlen |- *.
      apply outside_window; [exact Hnd|].
      rewrite length_app in Hlen. simpl in Hlen. lia. }
  assert (Hmiss : cache_get (key name) (lru (pass_end pre w2)) = None).
  { apply cache_get_None_keys. rewrite Hkeys2, Hkeys1, take_app_take.
    apply outside_window; [exact Hnd|].
    rewrite length_app in Hlen. simpl in Hlen. lia. }
  split; [exact Hmiss|].
  destruct (call_answered name (log EvNow (log EvNow (pass_end pre w2))) Hmiss)
    as [df Hcall].
  { apply Hans, elem_of_app. right. apply elem_of_cons. left. reflexivity. }
  exists df. rewrite fetch_same_day, Hcall. split; [reflexivity|].
  simpl. rewrite <- !app_assoc. reflexivity.
Qed.

End SameDay.

Lemma provider_same_day failures answer names :
  same_day (H := provider failures answer names) "20231114" "20231114".
Proof. intros t. split; reflexivity. Qed.

(** Three sectors, the provider down for four calls: the second sector
    is fetched at its second attempt in the first pass and comes out of
    the cache in the second pass. *)
Lemma second_pass_from_cache_witness :
  let w2 := snd (for_each ["小金属"; "银行"; "煤炭"]
                   (board_iteration (E := provider 4 sample_table [])) [] fresh) in
  fst (fetch (E := provider 4 sample_table []) "银行"
         (pass_end (H := provider 4 sample_table []) ["小金属"] w2))
  = Ok (Some sample_table)
  ∧ trace (snd (fetch (E := provider 4 sample_table []) "银行"
                  (pass_end (H := provider 4 sample_table []) ["小金属"] w2)))
    = (trace (pass_end (H := provider 4 sample_table []) ["小金属"] w2)
       ++ [EvNow; EvNow])%list.
Proof.
  apply (@second_pass_from_cache (provider 4 sample_table [])
           "20231114" "20231114" (provider_same_day 4 sample_table [])
           ["小金属"] ["煤炭"] "银行" fresh).
  - refine (bool_decide_unpack _ _). vm_compute. exact I.
  - vm_compute. lia.
  - apply NoDup_nil_2.
  - reflexivity.
  - reflexivity.
Defined.

(** Thirty-three sectors: the sixth is fetched again in the second
    pass. *)
Lemma second_pass_refetches_witness :
  let w2 := snd (for_each (sectors 0 5 ++ sector_name 5 :: sectors 6 27)
                   (board_iteration (E := provider 0 sample_table [])) [] fresh) in
  cache_get (key_of "20231114" "20231114" (sector_name 5))
    (lru (pass_end (H := provider 0 sample_table []) (sectors 0 5) w2)) = None
  ∧ ∃ df,
      fst (fetch (E := provider 0 sample_table []) (sector_name 5)
             (pass_end (H := provider 0 sample_table []) (sectors 0 5) w2))
      = Ok (Some df)
      ∧ trace (snd (fetch (E := provider 0 sample_table []) (sector_name 5)
                      (pass_end (H := provider 0 sample_table []) (sectors 0 5) w2)))
        = (trace (pass_end (H := provider 0 sample_table []) (sectors 0 5) w2)
           ++ [EvNow; EvNow; EvHist (sector_name 5) "20231114" "20231114"])%list.
Proof.
  apply (@second_pass_refetches (provider 0 sample_table [])
           "20231114" "20231114" (provider_same_day 0 sample_table [])
           (sectors 0 5) (sectors 6 27) (sector_name 5) fresh).
  - refine (bool_decide_unpack _ _). vm_compute. exact I.
  - vm_compute. lia.
  - intros t name _. reflexivity.
  - intros n _. reflexivity.
  - simpl. lia.
  - reflexivity.
Defined.
